(** * firebase-tools: CLI bootstrap, Next.js routing predicates, MCP tool handler

    A shallow embedding of three source files:
    - [src/frameworks/next/utils.ts]  (module [NextUtils])
    - [src/bin/cli.ts]                (module [Cli])
    - [src/mcp/tools/auth/disable_user.ts] (module [DisableUser])

    JavaScript strings are modelled as [string] (a sequence of code units);
    every character the code inspects is ASCII. *)

From Stdlib Require Import ZArith String Ascii List Bool Lia DecimalString.
From stdpp Require Import base option gmap strings.

Local Open Scope string_scope.
Local Open Scope bool_scope.

#[local] Set Warnings "-register-all".

(* ===================================================================== *)
(** * Exceptions *)
(* ===================================================================== *)

Module Js.

(** A thrown JavaScript error: [e.code] (absent on a plain [Error]) and
    [e.message]. *)
Record Error := { code : option string; message : string }.

(** The outcome of a call that may throw, or of a promise that may
    reject. *)
Inductive result (A : Type) : Type :=
| Ok (a : A)
| Throw (e : Error).
Arguments Ok {A} a.
Arguments Throw {A} e.

End Js.

(* ===================================================================== *)
(** * src/frameworks/next/utils.ts *)
(* ===================================================================== *)

Module NextUtils.

Definition backslash : ascii := "\"%char.
Definition lparen : ascii := "("%char.

(** The negative lookbehind [(?<!\\)] at a position whose previous
    character is [prev] ([None] at the start of the string). *)
Definition lookbehind_not_backslash (prev : option ascii) : bool :=
  match prev with
  | None => true
  | Some c => negb (Ascii.eqb c backslash)
  end.

(** [RegExp.prototype.test] for [/(?<!\\)\(/]: the matcher is tried at
    each position from left to right; [prev] is the character just before
    the current position. *)
Fixpoint test_unescaped_paren (prev : option ascii) (path : string) : bool :=
  match path with
  | EmptyString => false
  | String c rest =>
      (lookbehind_not_backslash prev && Ascii.eqb c lparen)
      || test_unescaped_paren (Some c) rest
  end.

(** [pathHasRegex(path)] = [/(?<!\\)\(/.test(path)]. *)
Definition pathHasRegex (path : string) : bool :=
  test_unescaped_paren None path.

(** The character class [[(){}:+?*]]. *)
Definition isEscapable (c : ascii) : bool :=
  Ascii.eqb c "("%char || Ascii.eqb c ")"%char
  || Ascii.eqb c "{"%char || Ascii.eqb c "}"%char
  || Ascii.eqb c ":"%char || Ascii.eqb c "+"%char
  || Ascii.eqb c "?"%char || Ascii.eqb c "*"%char.

(** [path.replace(/\\([(){}:+?*])/g, (a, b) => b)]: a global replace
    walks the string left to right; where the two-character pattern
    matches, the match is replaced by its capture group [b] and the scan
    resumes after the match; otherwise the character is copied. *)
Fixpoint cleanEscapedChars (path : string) : string :=
  match path with
  | EmptyString => EmptyString
  | String a tl =>
      match tl with
      | String b rest =>
          if Ascii.eqb a backslash && isEscapable b
          then String b (cleanEscapedChars rest)
          else String a (cleanEscapedChars tl)
      | EmptyString => String a EmptyString
      end
  end.

(** ** Parsed JSON values

    The manifests are the result of [JSON.parse]; [JUndefined] stands for
    an absent argument or property.  Numbers are kept integral: the code
    never computes with them. *)
Inductive jsval : Type :=
| JUndefined
| JNull
| JBool (b : bool)
| JNumber (n : Z)
| JString (s : string)
| JArray (items : list jsval)
| JObject (props : gmap string jsval).

(** [Array.isArray(v)]. *)
Definition isArray (v : jsval) : bool :=
  match v with
  | JArray _ => true
  | _ => false
  end.

(** JavaScript truthiness ([ToBoolean]): every array and every object is
    truthy, the empty array included. *)
Definition truthy (v : jsval) : bool :=
  match v with
  | JUndefined | JNull => false
  | JBool b => b
  | JNumber n => negb (n =? 0)%Z
  | JString s => negb (String.eqb s "")
  | JArray _ | JObject _ => true
  end.

(** Property read [v.key] for a key that no built-in prototype defines
    (such as [beforeFiles]): an object yields its own property, any other
    non-nullish value yields [undefined].  [None] is the [TypeError] of
    reading a property of [null] or [undefined]. *)
Definition get_prop (v : jsval) (key : string) : option jsval :=
  match v with
  | JUndefined | JNull => None
  | JObject props => Some (default JUndefined (props !! key))
  | _ => Some JUndefined
  end.

(** Optional chaining [v?.key]: [undefined] when [v] is nullish. *)
Definition get_prop_opt (v : jsval) (key : string) : jsval :=
  match v with
  | JUndefined | JNull => JUndefined
  | _ => default JUndefined (get_prop v key)
  end.

(** [key in obj] on the optional properties of a route object. *)
Definition key_in (key : string) (props : gmap string jsval) : bool :=
  bool_decide (is_Some (props !! key)).

(** ** Route objects ([next/dist/lib/load-custom-routes])

    [source] and [destination] are required strings; every other
    property ([has], [missing], [basePath], [locale], [internal],
    [statusCode], [permanent], ...) is optional and kept in [props],
    so that [in] is a key test. *)
Module Rewrite.
Record t := { source : string; destination : string;
              props : gmap string jsval }.
End Rewrite.

Module Redirect.
Record t := { source : string; destination : string;
              props : gmap string jsval }.
End Redirect.

Module Header.
Record t := { source : string; headers : list (string * string);
              props : gmap string jsval }.
End Header.

Section Predicates.
(** [isUrl] is imported from [../utils], which is outside the embedded
    sources; the predicates below are stated for any such function. *)
Variable isUrl : string -> bool.

Definition isRewriteSupportedByHosting (rewrite : Rewrite.t) : bool :=
  negb (key_in "has" (Rewrite.props rewrite)
        || pathHasRegex (Rewrite.source rewrite)
        || isUrl (Rewrite.destination rewrite)).

Definition isRedirectSupportedByHosting (redirect : Redirect.t) : bool :=
  negb (key_in "has" (Redirect.props redirect)
        || pathHasRegex (Redirect.source redirect)
        || key_in "internal" (Redirect.props redirect)).

Definition isHeaderSupportedByHosting (header : Header.t) : bool :=
  negb (key_in "has" (Header.props header)
        || pathHasRegex (Header.source header)).
End Predicates.

(** [getNextjsRewritesToUse(nextJsRewrites)]. *)
Definition getNextjsRewritesToUse (nextJsRewrites : jsval) : jsval :=
  if isArray nextJsRewrites then nextJsRewrites
  else if truthy (get_prop_opt nextJsRewrites "beforeFiles")
       then default JUndefined (get_prop nextJsRewrites "beforeFiles")
       else JArray [].

(** [Object.keys(o)]: the own property names (their order plays no part
    below). *)
Definition Object_keys (o : gmap string jsval) : list string :=
  (map_to_list o).*1.

(** [isUsingMiddleware(middleware)] = [Object.keys(middleware).length > 0]. *)
Definition isUsingMiddleware (middleware : gmap string jsval) : bool :=
  Nat.ltb 0 (List.length (Object_keys middleware)).

End NextUtils.

(* ===================================================================== *)
(** * src/bin/cli.ts *)
(* ===================================================================== *)

Module Cli.

Export Js.

Definition fd := nat.

(** [`${i}`] for a number: its decimal digits. *)
Definition decimal (i : nat) : string :=
  DecimalString.NilZero.string_of_uint (Nat.to_uint i).

(** [const candidates = ["firebase-debug.log"]; for (let i = 1; i < 10;
    i++) candidates.push(`firebase-debug.${i}.log`)]. *)
Definition candidates : list string :=
  fold_left
    (fun acc i => (acc ++ [("firebase-debug." ++ decimal i ++ ".log")%string])%list)
    (seq 1 9) ["firebase-debug.log"].

(** [e.code === "ENOENT"]. *)
Definition is_ENOENT (e : Error) : bool :=
  match code e with
  | Some c => String.eqb c "ENOENT"
  | None => false
  end.

Section FindAvailableLogFile.
(** The platform under the function: [path.join], [process.cwd()],
    [fs.openSync(_, "r+")] and [fs.closeSync]. *)
Variable join : string -> string -> string.
Variable cwd : string.
Variable openSync : string -> result fd.
Variable closeSync : fd -> result unit.

(** The body of the [try] block for one file name. *)
Definition open_and_close (logFilename : string) : result unit :=
  match openSync logFilename with
  | Ok d => closeSync d
  | Throw e => Throw e
  end.

(** [for (const c of candidates) { try {...} catch (e) {...} }]
    followed by the final [throw]. *)
Fixpoint try_candidates (cs : list string) : result string :=
  match cs with
  | [] =>
      Throw {| code := None;
               message := "Unable to obtain permissions for firebase-debug.log" |}
  | c :: rest =>
      let logFilename := join cwd c in
      match open_and_close logFilename with
      | Ok _ => Ok logFilename
      | Throw e =>
          if is_ENOENT e then Ok logFilename
          else try_candidates rest
      end
  end.

Definition findAvailableLogFile : result string :=
  try_candidates candidates.

(** A candidate is usable when it does not exist or opens read-write. *)
Definition usable (c : string) : Prop :=
  (exists d, openSync (join cwd c) = Ok d)
  \/ (exists e, openSync (join cwd c) = Throw e /\ is_ENOENT e = true).

(** A candidate is inaccessible when opening it fails with an error
    other than [ENOENT]. *)
Definition inaccessible (c : string) : Prop :=
  exists e, openSync (join cwd c) = Throw e /\ is_ENOENT e = false.

(** Closing a descriptor that [openSync] has just returned succeeds. *)
Definition close_succeeds : Prop :=
  forall p d, openSync p = Ok d -> closeSync d = Ok tt.
End FindAvailableLogFile.

(** ** The process and its environment *)

(** A directory entry: whether it is a regular file, and the error code
    (if any) with which opening it read-write fails. *)
Record Inode := { isFile : bool; open_error : option string }.

(** The listeners [cli] registers, as closures over what they capture. *)
Inductive ExitListener := OnExit (logFilename : string).
Inductive UncaughtListener := CallErrorOut.

Record Process := {
  env : gmap string string;               (* process.env *)
  exitCode : option Z;                    (* process.exitCode *)
  stdoutIsTTY : bool;                     (* process.stdout.isTTY *)
  fs : gmap string Inode;                 (* the file system, by path *)
  lastError : option Z;                   (* configstore key "lastError" *)
  stdout : list string;                   (* lines written by console.log *)
  transports : list string;               (* file transports of the logger *)
  debugLog : list (list string);          (* arguments of each logger.debug *)
  exitListeners : list ExitListener;      (* process.on("exit", _) *)
  uncaughtListeners : list UncaughtListener; (* process.on("uncaughtException", _) *)
  cmd : option string;                    (* the variable [let cmd] *)
  errorOutCalls : list Error              (* arguments of each errorOut call *)
}.

Definition set_env (f : gmap string string -> gmap string string) (p : Process) :=
  {| env := f (env p); exitCode := exitCode p; stdoutIsTTY := stdoutIsTTY p;
     fs := fs p; lastError := lastError p; stdout := stdout p;
     transports := transports p; debugLog := debugLog p;
     exitListeners := exitListeners p; uncaughtListeners := uncaughtListeners p;
     cmd := cmd p; errorOutCalls := errorOutCalls p |}.

Definition set_fs (f : gmap string Inode -> gmap string Inode) (p : Process) :=
  {| env := env p; exitCode := exitCode p; stdoutIsTTY := stdoutIsTTY p;
     fs := f (fs p); lastError := lastError p; stdout := stdout p;
     transports := transports p; debugLog := debugLog p;
     exitListeners := exitListeners p; uncaughtListeners := uncaughtListeners p;
     cmd := cmd p; errorOutCalls := errorOutCalls p |}.

Definition set_lastError (v : option Z) (p : Process) :=
  {| env := env p; exitCode := exitCode p; stdoutIsTTY := stdoutIsTTY p;
     fs := fs p; lastError := v; stdout := stdout p;
     transports := transports p; debugLog := debugLog p;
     exitListeners := exitListeners p; uncaughtListeners := uncaughtListeners p;
     cmd := cmd p; errorOutCalls := errorOutCalls p |}.

Definition set_stdout (f : list string -> list string) (p : Process) :=
  {| env := env p; exitCode := exitCode p; stdoutIsTTY := stdoutIsTTY p;
     fs := fs p; lastError := lastError p; stdout := f (stdout p);
     transports := transports p; debugLog := debugLog p;
     exitListeners := exitListeners p; uncaughtListeners := uncaughtListeners p;
     cmd := cmd p; errorOutCalls := errorOutCalls p |}.

Definition set_transports (f : list string -> list string) (p : Process) :=
  {| env := env p; exitCode := exitCode p; stdoutIsTTY := stdoutIsTTY p;
     fs := fs p; lastError := lastError p; stdout := stdout p;
     transports := f (transports p); debugLog := debugLog p;
     exitListeners := exitListeners p; uncaughtListeners := uncaughtListeners p;
     cmd := cmd p; errorOutCalls := errorOutCalls p |}.

Definition set_debugLog (f : list (list string) -> list (list string)) (p : Process) :=
  {| env := env p; exitCode := exitCode p; stdoutIsTTY := stdoutIsTTY p;
     fs := fs p; lastError := lastError p; stdout := stdout p;
     transports := transports p; debugLog := f (debugLog p);
     exitListeners := exitListeners p; uncaughtListeners := uncaughtListeners p;
     cmd := cmd p; errorOutCalls := errorOutCalls p |}.

Definition set_exitListeners (f : list ExitListener -> list ExitListener) (p : Process) :=
  {| env := env p; exitCode := exitCode p; stdoutIsTTY := stdoutIsTTY p;
     fs := fs p; lastError := lastError p; stdout := stdout p;
     transports := transports p; debugLog := debugLog p;
     exitListeners := f (exitListeners p); uncaughtListeners := uncaughtListeners p;
     cmd := cmd p; errorOutCalls := errorOutCalls p |}.

Definition set_uncaughtListeners
    (f : list UncaughtListener -> list UncaughtListener) (p : Process) :=
  {| env := env p; exitCode := exitCode p; stdoutIsTTY := stdoutIsTTY p;
     fs := fs p; lastError := lastError p; stdout := stdout p;
     transports := transports p; debugLog := debugLog p;
     exitListeners := exitListeners p; uncaughtListeners := f (uncaughtListeners p);
     cmd := cmd p; errorOutCalls := errorOutCalls p |}.

Definition set_cmd (v : option string) (p : Process) :=
  {| env := env p; exitCode := exitCode p; stdoutIsTTY := stdoutIsTTY p;
     fs := fs p; lastError := lastError p; stdout := stdout p;
     transports := transports p; debugLog := debugLog p;
     exitListeners := exitListeners p; uncaughtListeners := uncaughtListeners p;
     cmd := v; errorOutCalls := errorOutCalls p |}.

Definition set_errorOutCalls (f : list Error -> list Error) (p : Process) :=
  {| env := env p; exitCode := exitCode p; stdoutIsTTY := stdoutIsTTY p;
     fs := fs p; lastError := lastError p; stdout := stdout p;
     transports := transports p; debugLog := debugLog p;
     exitListeners := exitListeners p; uncaughtListeners := uncaughtListeners p;
     cmd := cmd p; errorOutCalls := f (errorOutCalls p) |}.

(** ** Statements that read and write the process and may throw *)

Definition M (A : Type) : Type := Process -> result A * Process.

Definition ret {A} (a : A) : M A := fun p => (Ok a, p).
Definition throw {A} (e : Error) : M A := fun p => (Throw e, p).
Definition bind {A B} (m : M A) (k : A -> M B) : M B :=
  fun p => match m p with
           | (Ok a, p') => k a p'
           | (Throw e, p') => (Throw e, p')
           end.
Definition gets {A} (f : Process -> A) : M A := fun p => (Ok (f p), p).
Definition modify (f : Process -> Process) : M unit := fun p => (Ok tt, f p).
Definition lift {A} (r : result A) : M A := fun p => (r, p).
(** [try { m } catch (err) { h(err) }]. *)
Definition try_catch {A} (m : M A) (h : Error -> M A) : M A :=
  fun p => match m p with
           | (Ok a, p') => (Ok a, p')
           | (Throw e, p') => h e p'
           end.
Definition when (b : bool) (m : M unit) : M unit := if b then m else ret tt.

(** Sequencing is written with stdpp's [x ← m; k] and [m ;; k]. *)
#[export] Instance M_ret : MRet M := @ret.
#[export] Instance M_bind : MBind M := fun A B k m => bind m k.

(** ** The platform calls the code makes *)

(** [!process.env.NAME]: an unset variable reads [undefined], and the
    empty string is falsy as well. *)
Definition env_falsy (name : string) (p : Process) : bool :=
  match env p !! name with
  | None => true
  | Some v => String.eqb v ""
  end.

Definition ENOENT : Error :=
  {| code := Some "ENOENT"; message := "ENOENT: no such file or directory" |}.

(** [fs.openSync(path, "r+")] on a file system: a missing entry fails
    with [ENOENT], an entry opens or fails with its own error code. *)
Definition fs_openSync (files : gmap string Inode) (path : string) : result fd :=
  match files !! path with
  | None => Throw ENOENT
  | Some n =>
      match open_error n with
      | None => Ok 3
      | Some c => Throw {| code := Some c; message := c |}
      end
  end.

Definition fs_closeSync (d : fd) : result unit := Ok tt.

(** Modelled from the spec: [fsutils.fileExistsSync] lives in
    [../fsutils], outside the embedded sources; it answers whether the
    path names an existing file. *)
Definition fileExistsSync (path : string) : M bool :=
  gets (fun p => match fs p !! path with
                 | Some n => isFile n
                 | None => false
                 end).

(** [fs.unlinkSync(path)]: [ENOENT] when the entry is missing; otherwise
    the file system either refuses the removal with an error ([refused
    path], such as [EACCES] in a directory that may not be written) or
    removes the entry. *)
Definition unlinkSync (refused : string -> option Error) (path : string) : M unit :=
  fun p => match fs p !! path with
           | Some _ =>
               match refused path with
               | Some e => (Throw e, p)
               | None => (Ok tt, set_fs (delete path) p)
               end
           | None => (Throw ENOENT, p)
           end.

Definition console_log (line : string) : M unit :=
  modify (set_stdout (fun out => (out ++ [line])%list)).

(** [logger.debug(...segments)]. *)
Definition logger_debug (segments : list string) : M unit :=
  modify (set_debugLog (fun l => (l ++ [segments])%list)).

(** Modelled from the spec: [errorOut] lives in [../errorOut], outside
    the embedded sources; it reports the error and terminates.  The call
    and its argument are recorded. *)
Definition errorOut (err : Error) : M unit :=
  modify (set_errorOutCalls (fun l => (l ++ [err])%list)).

(** [s.repeat(n)]. *)
Fixpoint repeat_string (s : string) (n : nat) : string :=
  match n with
  | O => ""
  | S n' => s ++ repeat_string s n'
  end.

(** [args.includes(x)]. *)
Definition includes (x : string) (args : list string) : bool :=
  existsb (String.eqb x) args.

(** ** The [exit] listener *)

Section ExitHandler.
(** The error, if any, with which the file system refuses to remove a
    path. *)
Variable unlink_refused : string -> option Error.
Variable now : Z.                     (* Date.now() *)
Variable bold : string -> string.     (* clc.bold *)
(** Building the update message and calling [updateNotifier.notify],
    given [installMethod] and [updateCommand]. *)
Variable notify : string -> string -> result unit.

(** [code = process.exitCode || code]. *)
Definition effective_code (code : Z) (p : Process) : Z :=
  match exitCode p with
  | Some c => if (c =? 0)%Z then code else c
  | None => code
  end.

(** [if (!process.env.DEBUG && code < 2 && fsutils.fileExistsSync(logFilename))
    fs.unlinkSync(logFilename)]. *)
Definition remove_log_file (logFilename : string) (code : Z) : M unit :=
  debugOff ← gets (env_falsy "DEBUG");
  present ← (if debugOff && (code <? 2)%Z
             then fileExistsSync logFilename else ret false);
  when present (unlinkSync unlink_refused logFilename).

(** [if (code > 0 && process.stdout.isTTY) {...} else {...}]: the help
    line for a recent failure, and the [lastError] time stamp. *)
Definition track_last_error (code : Z) : M unit :=
  tty ← gets stdoutIsTTY;
  if (0 <? code)%Z && tty then
    lastErr ← gets (fun p => default 0%Z (lastError p));
    let timestamp := now in
    when (timestamp - 120000 <? lastErr)%Z
      (c ← gets cmd;
       let help :=
         if (code =? 1)%Z && bool_decide (is_Some c)
         then "Having trouble? Try " ++ bold "firebase [command] --help"
         else "Having trouble? Try again or contact support with contents of firebase-debug.log" in
       when (bool_decide (is_Some c)) (console_log "";; console_log help));;
    modify (set_lastError (Some timestamp))
  else modify (set_lastError None).

(** [try { ... updateNotifier.notify(...) } catch (err) { ... }]. *)
Definition notify_update : M unit :=
  try_catch
    (noFirepit ← gets (env_falsy "FIREPIT_VERSION");
     let installMethod := if (noFirepit : bool) then "npm" else "automatic script" in
     let updateCommand :=
       if noFirepit then "npm install -g firebase-tools"
       else "curl -sL https://firebase.tools | upgrade=true bash" in
     lift (notify installMethod updateCommand))
    (fun err =>
       logger_debug ["Error when notifying about new CLI updates:"];;
       logger_debug [message err]).

(** The listener [(code) => {...}] registered for [exit]; its three
    statements in order. *)
Definition on_exit (logFilename : string) (code0 : Z) : M unit :=
  code ← gets (effective_code code0);
  remove_log_file logFilename code;;
  track_last_error code;;
  notify_update.

(** [process.emit("exit", code)]: every listener runs, in order. *)
Definition run_exit_listener (l : ExitListener) (code : Z) : M unit :=
  match l with
  | OnExit logFilename => on_exit logFilename code
  end.
End ExitHandler.

(** ** [cli(pkg)] *)

Section Bootstrap.
Variable join : string -> string -> string.              (* path.join *)
Variable cwd : string.                                   (* process.cwd() *)
Variable pkgVersion platform nodeVersion date : string.  (* banner values *)
Variable envOverrides : list string.                     (* utils.envOverrides *)
Variable handlePreviewToggles : list string -> bool.
(** [client.cli.parse(process.argv)]: the parsed command, or the
    exception it throws. *)
Variable parse : list string -> result string.

(** The statements of [cli] up to and including the registration of
    the two listeners; the result is [logFilename].  The calls
    [updateNotifierPkg], [enableExperimentsFromCliEnvVariable] and
    [fetchMOTD] touch nothing the process record holds. *)
Definition startup (argv : list string) : M string :=
  let args := drop 2 argv in
  files ← gets fs;
  logFilename ← lift (findAvailableLogFile join cwd (fs_openSync files) fs_closeSync);
  debugOff ← gets (env_falsy "DEBUG");
  when (debugOff && includes "--debug" args)
    (modify (set_env (insert "DEBUG" "true")));;
  modify (set_env (insert "IS_FIREBASE_CLI" "true"));;
  modify (set_transports (fun t => (t ++ [logFilename])%list));;
  logger_debug [repeat_string "-" 70];;
  logger_debug ["Command:      "; String.concat " " argv];;
  logger_debug ["CLI Version:  "; pkgVersion];;
  logger_debug ["Platform:     "; platform];;
  logger_debug ["Node Version: "; nodeVersion];;
  logger_debug ["Time:         "; date];;
  when (negb (Nat.eqb (length envOverrides) 0))
    (logger_debug ["Env Overrides:"; String.concat ", " envOverrides]);;
  logger_debug [repeat_string "-" 70];;
  logger_debug [];;
  modify (set_exitListeners (fun l => (l ++ [OnExit logFilename])%list));;
  modify (set_uncaughtListeners (fun l => (l ++ [CallErrorOut])%list));;
  ret logFilename.

(** The command dispatch that ends [cli]. *)
Definition dispatch (argv : list string) : M unit :=
  let args := drop 2 argv in
  if negb (handlePreviewToggles args) then
    if Nat.eqb (length args) 0 then ret tt        (* client.cli.help() *)
    else c ← lift (parse argv); modify (set_cmd (Some c))
  else ret tt.

Definition cli (argv : list string) : M unit :=
  startup argv;; dispatch argv.

(** ** Exceptions nobody caught

    The runtime hands an exception that reached the top of the stack to
    the [uncaughtException] listeners, in registration order; with no
    listener the process prints the error and dies. *)
Definition run_uncaught_listener (l : UncaughtListener) (err : Error) : M unit :=
  match l with
  | CallErrorOut => errorOut err
  end.

Inductive Fate : Type :=
| Running (p : Process)              (* [cli] returned *)
| Handled (p : Process)              (* the listeners took the exception *)
| Crashed (e : Error) (p : Process). (* no listener: default crash *)

Definition uncaughtException (err : Error) (p : Process) : Fate :=
  match uncaughtListeners p with
  | [] => Crashed err p
  | ls => Handled (fold_left (fun q l => snd (run_uncaught_listener l err q)) ls p)
  end.

(** Running [cli] as the program's entry point. *)
Definition main (argv : list string) (p : Process) : Fate :=
  match cli argv p with
  | (Ok _, p') => Running p'
  | (Throw e, p') => uncaughtException e p'
  end.
End Bootstrap.

End Cli.

(* ===================================================================== *)
(** * src/mcp/tools/auth/disable_user.ts *)
(* ===================================================================== *)

Module DisableUser.
Import Js.

(** The first argument of [tool(...)]. *)
Record ToolOptions := {
  name : string;
  description : string;
  title : string;
  readOnlyHint : bool
}.

Definition options : ToolOptions :=
  {| name := "disable_user";
     description := "Disables or enables a Firebase user based on the UID of the user.";
     title := "Disable a user based on Firebase Auth UID.";
     readOnlyHint := true |}.

(** The ambient context handed to a tool: [projectId] may be absent. *)
Record Context := { projectId : option string }.

Section Handler.
Variable Project : Type.         (* the project resource *)
Variable CallToolResult : Type.  (* what a tool hands back *)
(** [mcpError] and [toContent] come from [../../util.js], outside the
    embedded sources. *)
Variable mcpError : string -> CallToolResult.
Variable toContent : Project -> CallToolResult.

(** The remote services: what fetching each project id yields, and the
    [disabled] flag of every Auth user, by UID. *)
Record Remote := {
  fetch_project : string -> result Project;
  disabled : gmap string bool
}.

(** Modelled from the spec: [getProject] lives in
    [../../../management/projects.js], outside the embedded sources; it
    fetches the project resource, a read of the remote state. *)
Definition getProject (projectId : string) (r : Remote) : result Project * Remote :=
  (fetch_project r projectId, r).

(** [!projectId]. *)
Definition projectId_falsy (projectId : option string) : bool :=
  match projectId with
  | None => true
  | Some s => String.eqb s ""
  end.

(** [async ({uid, disable}, {projectId}) => {...}]: the outcome of the
    returned promise and the remote state it leaves. *)
Definition handler (uid : string) (disable : bool) (ctx : Context)
    (r : Remote) : result CallToolResult * Remote :=
  match projectId ctx with
  | Some pid =>
      if projectId_falsy (Some pid)
      then (Ok (mcpError "No current project detected."), r)
      else match getProject pid r with
           | (Ok project, r') => (Ok (toContent project), r')
           | (Throw e, r') => (Throw e, r')
           end
  | None => (Ok (mcpError "No current project detected."), r)
  end.
End Handler.

Arguments fetch_project {Project} r projectId : rename.
Arguments disabled {Project} r : rename.
Arguments getProject {Project} projectId r.

End DisableUser.

(* ===================================================================== *)
(** * Properties of the Next.js routing predicates *)
(* ===================================================================== *)

Section PathFacts.
Import NextUtils.

(** Position [i] of [path] holds an opening parenthesis, the character
    [(], that no backslash, the character [\], immediately precedes. *)
Definition unescaped_paren_at (path : string) (i : nat) : Prop :=
  String.get i path = Some "("%char
  /\ ~ (exists j, i = S j /\ String.get j path = Some "\"%char).

Lemma ascii_eqb_true (a b : ascii) : Ascii.eqb a b = true <-> a = b.
Proof. apply Ascii.eqb_eq. Qed.

Lemma test_unescaped_paren_spec (path : string) :
  forall prev,
    test_unescaped_paren prev path = true <->
    exists i, String.get i path = Some lparen
              /\ match i with
                 | O => lookbehind_not_backslash prev = true
                 | S j => String.get j path <> Some backslash
                 end.
Proof.
  induction path as [|c rest IH]; intros prev; simpl.
  - split; [discriminate|]. intros [i [H _]]. destruct i; discriminate.
  - rewrite orb_true_iff, andb_true_iff, ascii_eqb_true, IH. split.
    + intros [[Hl Hc]|[i [Hg Hp]]].
      * exists 0. subst c. split; [reflexivity|exact Hl].
      * exists (S i). split; [exact Hg|].
        destruct i as [|j]; simpl in *.
        -- intros E. injection E as ->.
           unfold backslash in Hp. rewrite Ascii.eqb_refl in Hp. discriminate.
        -- exact Hp.
    + intros [[|i] [Hg Hp]]; simpl in *.
      * left. injection Hg as ->. split; [exact Hp|reflexivity].
      * right. exists i. split; [exact Hg|].
        destruct i as [|j]; simpl in *.
        -- destruct (Ascii.eqb c backslash) eqn:E; [|reflexivity].
           apply ascii_eqb_true in E. subst c. exfalso. apply Hp. reflexivity.
        -- exact Hp.
Qed.

(** C8: [pathHasRegex] answers [true] exactly when the path holds an
    opening parenthesis that is not immediately preceded by a backslash
    character; in particular a parenthesis escaped by one backslash, the
    two-character string [\(], is not regex-bearing, while the
    parenthesis of [/post/:slug(\d{1,})] is. *)
Theorem pathHasRegex_iff_unescaped_paren :
  (forall path : string,
      pathHasRegex path = true <-> exists i, unescaped_paren_at path i)
  /\ pathHasRegex "\(" = false
  /\ pathHasRegex "/post/:slug(\d{1,})" = true.
Proof.
  split; [|split; reflexivity].
  intros path. unfold pathHasRegex, unescaped_paren_at.
  rewrite test_unescaped_paren_spec. split.
  - intros [i [Hg Hp]]. exists i. split; [exact Hg|].
    intros [j [-> Hj]]. apply Hp. exact Hj.
  - intros [i [Hg Hn]]. exists i. split; [exact Hg|].
    destruct i as [|j]; [reflexivity|].
    intros Hj. apply Hn. exists j. split; [reflexivity|exact Hj].
Qed.

Example pathHasRegex_slug : pathHasRegex "/post/:slug(\d{1,})" = true.
Proof. reflexivity. Qed.

Example pathHasRegex_double_backslash : pathHasRegex "/a\\(b" = false.
Proof. reflexivity. Qed.

Example pathHasRegex_plain : pathHasRegex "/about/team" = false.
Proof. reflexivity. Qed.

End PathFacts.

Section CleanEscapedCharsFacts.
Import NextUtils.

(** The eight characters of the specification: [( ) { } : + ? *]. *)
Definition special_characters : list ascii :=
  ["("; ")"; "{"; "}"; ":"; "+"; "?"; "*"]%char.

(** Position [i] of [path] holds a backslash, the character [\], that is
    immediately followed by one of the eight characters. *)
Definition escape_at (path : string) (i : nat) : bool :=
  match String.get i path, String.get (S i) path with
  | Some a, Some b =>
      Ascii.eqb a "\"%char && existsb (Ascii.eqb b) special_characters
  | _, _ => false
  end.

(** The characters of [rest], which sit at positions [i], [i+1], ... of
    [path], without those at an escaping position. *)
Fixpoint keep_unescaping (path : string) (i : nat) (rest : string) : string :=
  match rest with
  | EmptyString => EmptyString
  | String c rest' =>
      if escape_at path i then keep_unescaping path (S i) rest'
      else String c (keep_unescaping path (S i) rest')
  end.

(** What the specification asks of [cleanEscapedChars]: the path with
    each backslash that immediately precedes one of the eight characters
    removed, and nothing else changed. *)
Definition without_escaping_backslashes (path : string) : string :=
  keep_unescaping path 0 path.

(** The number of escaping backslashes in [path]. *)
Definition escape_count (path : string) : nat :=
  List.length (List.filter (escape_at path) (seq 0 (String.length path))).

(** An already-unescaped path: no backslash is immediately followed by one
    of the eight characters. *)
Definition unescaped (path : string) : Prop :=
  forall i, escape_at path i = false.

Lemma get_append_right (pre s : string) (k : nat) :
  String.get (String.length pre + k) (pre ++ s) = String.get k s.
Proof.
  induction pre as [|a pre IH]; simpl; [reflexivity|exact IH].
Qed.

(** The character class of the code is the eight characters. *)
Lemma isEscapable_special (b : ascii) :
  isEscapable b = existsb (Ascii.eqb b) special_characters.
Proof.
  unfold isEscapable, special_characters. cbn [existsb].
  rewrite orb_false_r, <- !orb_assoc. reflexivity.
Qed.

Lemma escape_at_suffix (pre : string) (a : ascii) (tl : string) :
  escape_at (pre ++ String a tl) (String.length pre)
  = match tl with
    | String b _ => Ascii.eqb a backslash && isEscapable b
    | EmptyString => false
    end.
Proof.
  unfold escape_at.
  replace (S (String.length pre)) with (String.length pre + 1) by lia.
  rewrite <- (Nat.add_0_r (String.length pre)) at 1.
  rewrite !get_append_right.
  destruct tl as [|b tl']; [reflexivity|].
  rewrite isEscapable_special. reflexivity.
Qed.

Lemma isEscapable_not_backslash (b : ascii) :
  isEscapable b = true -> Ascii.eqb b backslash = false.
Proof.
  intros H. destruct (Ascii.eqb b backslash) eqn:E; [|reflexivity].
  apply Ascii.eqb_eq in E. subst b. discriminate H.
Qed.

Lemma append_snoc (pre : string) (a : ascii) (s : string) :
  (pre ++ String a s = (pre ++ String a EmptyString) ++ s)%string.
Proof.
  induction pre as [|c pre IH]; [reflexivity|].
  exact (f_equal (String c) IH).
Qed.

Lemma length_snoc (pre : string) (a : ascii) :
  String.length (pre ++ String a EmptyString) = S (String.length pre).
Proof.
  induction pre as [|c pre IH]; [reflexivity|].
  exact (f_equal S IH).
Qed.

(** One step of [keep_unescaping] on a suffix of the path. *)
Lemma keep_unescaping_step (pre : string) (a : ascii) (tl : string) :
  keep_unescaping (pre ++ String a tl) (String.length pre) (String a tl)
  = let pre' := (pre ++ String a EmptyString)%string in
    if match tl with
       | String b _ => Ascii.eqb a backslash && isEscapable b
       | EmptyString => false
       end
    then keep_unescaping (pre' ++ tl) (String.length pre') tl
    else String a (keep_unescaping (pre' ++ tl) (String.length pre') tl).
Proof.
  cbn [keep_unescaping]. rewrite escape_at_suffix.
  cbv zeta. rewrite <- (append_snoc pre a tl), (length_snoc pre a).
  reflexivity.
Qed.

(** The left-to-right replace deletes exactly the escaping positions. *)
Lemma cleanEscapedChars_keep (n : nat) :
  forall s pre, String.length s <= n ->
    keep_unescaping (pre ++ s) (String.length pre) s = cleanEscapedChars s.
Proof.
  induction n as [|n IH]; intros s pre Hn.
  - destruct s; [reflexivity|simpl in Hn; lia].
  - destruct s as [|a tl]; [reflexivity|].
    rewrite keep_unescaping_step. cbv zeta.
    destruct tl as [|b rest]; [reflexivity|].
    cbn [cleanEscapedChars].
    destruct (Ascii.eqb a backslash && isEscapable b) eqn:E.
    + apply andb_true_iff in E as [_ Hb].
      rewrite keep_unescaping_step. cbv zeta.
      rewrite (isEscapable_not_backslash b Hb).
      assert (Hd : (match rest with
                    | String b0 _ => false && isEscapable b0
                    | EmptyString => false
                    end) = false) by (destruct rest; reflexivity).
      rewrite Hd. f_equal. apply IH. simpl in Hn. lia.
    + f_equal. apply IH. simpl in Hn. simpl. lia.
Qed.

Lemma cleanEscapedChars_refines (path : string) :
  cleanEscapedChars path = without_escaping_backslashes path.
Proof.
  unfold without_escaping_backslashes. symmetry.
  exact (cleanEscapedChars_keep (String.length path) path EmptyString (le_n _)).
Qed.

Lemma keep_unescaping_length (path rest : string) :
  forall i,
    String.length rest
    = String.length (keep_unescaping path i rest)
      + List.length (List.filter (escape_at path) (seq i (String.length rest))).
Proof.
  induction rest as [|c rest IH]; intros i; [reflexivity|].
  cbn [keep_unescaping String.length seq List.filter].
  destruct (escape_at path i); cbn [String.length List.length];
    rewrite (IH (S i)) at 1; lia.
Qed.

Lemma keep_unescaping_id (path rest : string) :
  unescaped path -> forall i, keep_unescaping path i rest = rest.
Proof.
  intros Hu. induction rest as [|c rest IH]; intros i; [reflexivity|].
  cbn [keep_unescaping]. rewrite (Hu i), IH. reflexivity.
Qed.

(** A path of which every position has been checked is unescaped. *)
Definition unescapedb (path : string) : bool :=
  forallb (fun i => negb (escape_at path i)) (seq 0 (String.length path)).

Lemma get_beyond (path : string) :
  forall i, String.length path <= i -> String.get i path = None.
Proof.
  induction path as [|c path IH]; intros i Hi; [reflexivity|].
  destruct i as [|i]; simpl in *; [lia|]. apply IH. lia.
Qed.

Lemma unescapedb_sound (path : string) :
  unescapedb path = true -> unescaped path.
Proof.
  unfold unescapedb. rewrite forallb_forall. intros H i.
  destruct (Nat.lt_ge_cases i (String.length path)) as [Hlt|Hge].
  - apply negb_true_iff, H, in_seq. lia.
  - unfold escape_at. rewrite (get_beyond path i Hge). reflexivity.
Qed.

(** C3: [cleanEscapedChars] removes exactly one backslash, the one
    immediately preceding each occurrence of [( ) { } : + ? *], and nothing
    else: the result is the path without its escaping backslashes, and is
    shorter by their number.  On an already-unescaped path it is the
    identity, hence idempotent there.  A path that escapes each of the
    eight characters once loses exactly those eight backslashes. *)
Theorem cleanEscapedChars_unescapes :
  (forall path : string,
      cleanEscapedChars path = without_escaping_backslashes path)
  /\ (forall path : string,
         String.length path
         = String.length (cleanEscapedChars path) + escape_count path)
  /\ (forall path : string, unescaped path -> cleanEscapedChars path = path)
  /\ (forall path : string,
         unescaped path ->
         cleanEscapedChars (cleanEscapedChars path) = cleanEscapedChars path)
  /\ cleanEscapedChars "/blog/\(draft\)/\:id\?x\*\+\{1\}/a\.b"
     = "/blog/(draft)/:id?x*+{1}/a\.b".
Proof.
  split; [exact cleanEscapedChars_refines|].
  assert (Hid : forall path, unescaped path -> cleanEscapedChars path = path).
  { intros path Hu. rewrite cleanEscapedChars_refines.
    apply keep_unescaping_id. exact Hu. }
  split; [|split; [exact Hid|split; [|reflexivity]]].
  - intros path. rewrite cleanEscapedChars_refines.
    apply keep_unescaping_length.
  - intros path Hu. rewrite (Hid path Hu). exact (Hid path Hu).
Qed.

(** The theorem at [/post/:slug(\d{1,})], whose backslash escapes
    nothing, and at [/blog/\(draft\)/\:id], whose three backslashes do. *)
Lemma cleanEscapedChars_unescapes_witness :
  (unescaped "/post/:slug(\d{1,})"
   /\ cleanEscapedChars (cleanEscapedChars "/post/:slug(\d{1,})")
      = cleanEscapedChars "/post/:slug(\d{1,})")
  /\ cleanEscapedChars "/blog/\(draft\)/\:id" = "/blog/(draft)/:id"
  /\ escape_count "/blog/\(draft\)/\:id" = 3.
Proof.
  assert (Hu : unescaped "/post/:slug(\d{1,})")
    by (apply unescapedb_sound; reflexivity).
  split; [split; [exact Hu|]|split].
  - exact (proj1 (proj2 (proj2 (proj2 cleanEscapedChars_unescapes))) _ Hu).
  - rewrite (proj1 cleanEscapedChars_unescapes). reflexivity.
  - reflexivity.
Defined.

Example cleanEscapedChars_escaped :
  cleanEscapedChars "/blog/\(draft\)/\:id\?x\*\+\{1\}" = "/blog/(draft)/:id?x*+{1}".
Proof. reflexivity. Qed.

(** Of two backslashes before a parenthesis only the second is removed,
    so the function is not idempotent on every path. *)
Example cleanEscapedChars_two_backslashes :
  cleanEscapedChars "a\\(" = "a\("
  /\ cleanEscapedChars (cleanEscapedChars "a\\(") = "a(".
Proof. split; reflexivity. Qed.

Example cleanEscapedChars_other_escapes :
  cleanEscapedChars "/a\.b\\c\" = "/a\.b\\c\".
Proof. reflexivity. Qed.

End CleanEscapedCharsFacts.

Section RouteFacts.
Import NextUtils.

(** The object has the property [key]. *)
Definition has_property (key : string) (props : gmap string jsval) : Prop :=
  is_Some (props !! key).

Lemma key_in_true (key : string) (props : gmap string jsval) :
  key_in key props = true <-> has_property key props.
Proof. unfold key_in, has_property. apply bool_decide_eq_true. Qed.

Lemma key_in_false (key : string) (props : gmap string jsval) :
  key_in key props = false <-> ~ has_property key props.
Proof. unfold key_in, has_property. apply bool_decide_eq_false. Qed.

Section Rewrites.
Variable isUrl : string -> bool.

(** C1: a rewrite with a [has] property, or a source path with a regex, or
    an absolute-URL destination is not supported; a rewrite with none of
    the three is supported. *)
Theorem isRewriteSupportedByHosting_spec (rewrite : Rewrite.t) :
  (has_property "has" (Rewrite.props rewrite)
   \/ pathHasRegex (Rewrite.source rewrite) = true
   \/ isUrl (Rewrite.destination rewrite) = true ->
   isRewriteSupportedByHosting isUrl rewrite = false)
  /\ (~ has_property "has" (Rewrite.props rewrite) ->
      pathHasRegex (Rewrite.source rewrite) = false ->
      isUrl (Rewrite.destination rewrite) = false ->
      isRewriteSupportedByHosting isUrl rewrite = true).
Proof.
  unfold isRewriteSupportedByHosting. split.
  - intros [H|[H|H]].
    + apply key_in_true in H. rewrite H. reflexivity.
    + rewrite H. now rewrite orb_true_r.
    + rewrite H. now rewrite orb_true_r.
  - intros Hh Hs Hd. apply key_in_false in Hh.
    rewrite Hh, Hs, Hd. reflexivity.
Qed.

End Rewrites.

(** A stand-in for [isUrl]: the destination starts with an http(s) scheme. *)
Definition starts_with_http (url : string) : bool :=
  String.prefix "http://" url || String.prefix "https://" url.

Lemma isRewriteSupportedByHosting_spec_witness :
  isRewriteSupportedByHosting starts_with_http
    {| Rewrite.source := "/about"; Rewrite.destination := "/";
       Rewrite.props := ∅ |} = true
  /\ isRewriteSupportedByHosting starts_with_http
       {| Rewrite.source := "/about"; Rewrite.destination := "https://example.com/";
          Rewrite.props := ∅ |} = false.
Proof.
  split.
  - apply (proj2 (isRewriteSupportedByHosting_spec starts_with_http _)).
    + unfold has_property. simpl. rewrite lookup_empty. apply is_Some_None.
    + reflexivity.
    + reflexivity.
  - apply (proj1 (isRewriteSupportedByHosting_spec starts_with_http _)).
    right. right. reflexivity.
Defined.

(** C9: a redirect is unsupported exactly when it has a [has] property, or
    its source path has a regex, or it has an [internal] property.  The
    destination is never examined: changing it changes nothing, and a
    redirect with none of the three features is supported whatever its
    destination, an absolute external URL included. *)
Theorem isRedirectSupportedByHosting_spec :
  (forall redirect : Redirect.t,
      isRedirectSupportedByHosting redirect = false <->
      has_property "has" (Redirect.props redirect)
      \/ pathHasRegex (Redirect.source redirect) = true
      \/ has_property "internal" (Redirect.props redirect))
  /\ (forall (redirect : Redirect.t) (destination' : string),
         isRedirectSupportedByHosting
           {| Redirect.source := Redirect.source redirect;
              Redirect.destination := destination';
              Redirect.props := Redirect.props redirect |}
         = isRedirectSupportedByHosting redirect)
  /\ (forall (source : string) (props : gmap string jsval),
         ~ has_property "has" props ->
         pathHasRegex source = false ->
         ~ has_property "internal" props ->
         isRedirectSupportedByHosting
           {| Redirect.source := source;
              Redirect.destination := "https://example.com/elsewhere";
              Redirect.props := props |} = true).
Proof.
  split; [|split].
  - intros redirect. unfold isRedirectSupportedByHosting.
    rewrite negb_false_iff, !orb_true_iff, !key_in_true. tauto.
  - reflexivity.
  - intros source props Hh Hs Hi. unfold isRedirectSupportedByHosting. simpl.
    apply key_in_false in Hh, Hi. rewrite Hh, Hs, Hi. reflexivity.
Qed.

Lemma isRedirectSupportedByHosting_spec_witness :
  isRedirectSupportedByHosting
    {| Redirect.source := "/old"; 
       Redirect.destination := "https://example.com/elsewhere";
       Redirect.props := {[ "permanent" := JBool true ]} |} = true.
Proof.
  apply (proj2 (proj2 isRedirectSupportedByHosting_spec)).
  - unfold has_property. rewrite lookup_singleton_ne by discriminate.
    apply is_Some_None.
  - reflexivity.
  - unfold has_property. rewrite lookup_singleton_ne by discriminate.
    apply is_Some_None.
Defined.

End RouteFacts.

Section RewritesToUseFacts.
Import NextUtils.

Lemma getNextjsRewritesToUse_beforeFiles (props : gmap string jsval) (l : list jsval) :
  props !! "beforeFiles" = Some (JArray l) ->
  getNextjsRewritesToUse (JObject props) = JArray l.
Proof.
  intros H. unfold getNextjsRewritesToUse. simpl. rewrite H. reflexivity.
Qed.

(** C4: an array manifest is returned unchanged; an object with only a
    [beforeFiles] key yields that list; a value that is neither an array
    nor an object with a [beforeFiles] property, [null] and [undefined]
    included, yields the empty list. *)
Theorem getNextjsRewritesToUse_cases :
  (forall items : list jsval,
      getNextjsRewritesToUse (JArray items) = JArray items)
  /\ (forall l : list jsval,
         getNextjsRewritesToUse (JObject {[ "beforeFiles" := JArray l ]})
         = JArray l)
  /\ (forall v : jsval,
         isArray v = false ->
         (forall props, v = JObject props -> ~ has_property "beforeFiles" props) ->
         getNextjsRewritesToUse v = JArray [])
  /\ getNextjsRewritesToUse JNull = JArray []
  /\ getNextjsRewritesToUse JUndefined = JArray [].
Proof.
  split; [reflexivity|]. split; [|split; [|split; reflexivity]].
  - intros l. apply getNextjsRewritesToUse_beforeFiles.
    apply lookup_singleton_eq.
  - intros v Ha Hv. unfold getNextjsRewritesToUse. rewrite Ha.
    destruct v as [| |b|n|s|items|props]; try reflexivity.
    specialize (Hv props eq_refl). unfold has_property in Hv.
    simpl. destruct (props !! "beforeFiles") eqn:E.
    + exfalso. apply Hv. eauto.
    + reflexivity.
Qed.

Lemma getNextjsRewritesToUse_cases_witness :
  getNextjsRewritesToUse
    (JObject {[ "afterFiles" := JArray [JObject {[ "source" := JString "/a" ]}] ]})
  = JArray [].
Proof.
  apply (proj1 (proj2 (proj2 getNextjsRewritesToUse_cases))).
  - reflexivity.
  - intros props [= <-]. unfold has_property.
    rewrite lookup_singleton_ne by discriminate. apply is_Some_None.
Defined.

(** C10: for an object manifest whose [beforeFiles] is a non-empty list the
    result is exactly that list, whether or not [afterFiles] and
    [fallback] are present and whatever they hold, so their rewrites are
    discarded; for an empty [beforeFiles] list the result is the empty
    list. *)
Theorem getNextjsRewritesToUse_only_beforeFiles :
  (forall (props : gmap string jsval) (l : list jsval),
      props !! "beforeFiles" = Some (JArray l) -> l <> [] ->
      getNextjsRewritesToUse (JObject props) = JArray l)
  /\ (forall (props : gmap string jsval) (l : list jsval) (afterFiles fallback : jsval),
         props !! "beforeFiles" = Some (JArray l) -> l <> [] ->
         getNextjsRewritesToUse
           (JObject (<["afterFiles" := afterFiles]> (<["fallback" := fallback]> props)))
         = JArray l)
  /\ (forall props : gmap string jsval,
         props !! "beforeFiles" = Some (JArray []) ->
         getNextjsRewritesToUse (JObject props) = JArray []).
Proof.
  split; [|split].
  - intros props l H _. exact (getNextjsRewritesToUse_beforeFiles props l H).
  - intros props l af fb H _. apply getNextjsRewritesToUse_beforeFiles.
    rewrite !lookup_insert_ne by discriminate. exact H.
  - intros props H. exact (getNextjsRewritesToUse_beforeFiles props [] H).
Qed.

Lemma getNextjsRewritesToUse_only_beforeFiles_witness :
  getNextjsRewritesToUse
    (JObject (<["afterFiles" := JArray [JString "after"]]>
              (<["fallback" := JArray [JString "fallback"]]>
               {[ "beforeFiles" := JArray [JString "before"] ]})))
  = JArray [JString "before"].
Proof.
  apply (proj1 (proj2 getNextjsRewritesToUse_only_beforeFiles)).
  - apply lookup_singleton_eq.
  - discriminate.
Defined.

End RewritesToUseFacts.

(* ===================================================================== *)
(** * Properties of the CLI bootstrap *)
(* ===================================================================== *)

Section LogFileFacts.
Import Cli.

Variable join : string -> string -> string.
Variable cwd : string.
Variable openSync : string -> result fd.
Variable closeSync : fd -> result unit.
Hypothesis close_ok : close_succeeds openSync closeSync.

Local Abbreviation usable := (usable join cwd openSync).
Local Abbreviation inaccessible := (inaccessible join cwd openSync).
Local Abbreviation try_candidates := (try_candidates join cwd openSync closeSync).

Lemma usable_or_inaccessible (c : string) : usable c \/ inaccessible c.
Proof.
  unfold Cli.usable, Cli.inaccessible.
  destruct (openSync (join cwd c)) as [d|e]; [left; left; eauto|].
  destruct (is_ENOENT e) eqn:E; [left; right|right]; eauto.
Qed.

Lemma usable_not_inaccessible (c : string) : usable c -> ~ inaccessible c.
Proof.
  intros [[d Hd]|[e [He Hn]]] [e' [He' Hn']]; congruence.
Qed.

Lemma try_candidates_usable (c : string) (rest : list string) :
  usable c -> try_candidates (c :: rest) = Ok (join cwd c).
Proof.
  intros [[d Hd]|[e [He Hn]]]; cbn [Cli.try_candidates]; unfold open_and_close.
  - rewrite Hd, (close_ok _ _ Hd). reflexivity.
  - rewrite He, Hn. reflexivity.
Qed.

Lemma try_candidates_inaccessible (c : string) (rest : list string) :
  inaccessible c -> try_candidates (c :: rest) = try_candidates rest.
Proof.
  intros [e [He Hn]]. cbn [Cli.try_candidates]. unfold open_and_close.
  rewrite He, Hn. reflexivity.
Qed.

(** The loop returns the first usable candidate. *)
Lemma try_candidates_Ok (cs : list string) (p : string) :
  try_candidates cs = Ok p <->
  exists pre c post,
    cs = (pre ++ c :: post)%list /\ Forall inaccessible pre /\ usable c
    /\ p = join cwd c.
Proof.
  revert p. induction cs as [|c rest IH]; intros p.
  - split; [discriminate|].
    intros (pre & c & post & H & _). destruct pre; discriminate H.
  - destruct (usable_or_inaccessible c) as [Hu|Hi].
    + rewrite (try_candidates_usable c rest Hu). split.
      * intros [= <-]. exists [], c, rest. auto.
      * intros (pre & c' & post & H & Hpre & Hc & ->).
        destruct pre as [|x pre]; simpl in H; injection H as <- _.
        -- reflexivity.
        -- exfalso. apply Forall_cons in Hpre as [Hx _].
           exact (usable_not_inaccessible _ Hu Hx).
    + rewrite (try_candidates_inaccessible c rest Hi), IH. split.
      * intros (pre & c' & post & -> & Hpre & Hc & ->).
        exists (c :: pre), c', post. auto.
      * intros (pre & c' & post & H & Hpre & Hc & ->).
        destruct pre as [|x pre]; simpl in H; injection H as <- H.
        -- exfalso. exact (usable_not_inaccessible _ Hc Hi).
        -- apply Forall_cons in Hpre as [_ Hpre]. exists pre, c', post. auto.
Qed.

(** The loop falls through to the final [throw] exactly when every
    candidate is inaccessible. *)
Lemma try_candidates_Throw (cs : list string) :
  (exists e, try_candidates cs = Throw e) <-> Forall inaccessible cs.
Proof.
  induction cs as [|c rest IH].
  - split; [constructor|]. intros _. eexists. reflexivity.
  - destruct (usable_or_inaccessible c) as [Hu|Hi].
    + rewrite (try_candidates_usable c rest Hu). split.
      * intros [e He]. discriminate He.
      * intros H. apply Forall_cons in H as [Hc _].
        exfalso. exact (usable_not_inaccessible _ Hu Hc).
    + rewrite (try_candidates_inaccessible c rest Hi), IH. split.
      * intros H. constructor; assumption.
      * intros H. apply Forall_cons in H as [_ H]. exact H.
Qed.

(** On a platform where closing a fresh descriptor succeeds, the selection
    returns the path of the first candidate that does not exist or opens
    read-write, and throws exactly when all ten are inaccessible. *)
Theorem findAvailableLogFile_first_usable :
  candidates
  = ["firebase-debug.log"; "firebase-debug.1.log"; "firebase-debug.2.log";
     "firebase-debug.3.log"; "firebase-debug.4.log"; "firebase-debug.5.log";
     "firebase-debug.6.log"; "firebase-debug.7.log"; "firebase-debug.8.log";
     "firebase-debug.9.log"]
  /\ (forall p : string,
         findAvailableLogFile join cwd openSync closeSync = Ok p <->
         exists pre c post,
           candidates = (pre ++ c :: post)%list
           /\ Forall inaccessible pre /\ usable c /\ p = join cwd c)
  /\ ((exists e, findAvailableLogFile join cwd openSync closeSync = Throw e) <->
      Forall inaccessible candidates).
Proof.
  split; [reflexivity|]. split.
  - intros p. apply try_candidates_Ok.
  - apply try_candidates_Throw.
Qed.

End LogFileFacts.

Section LogFileWitness.
Import Cli.

(** [path.join] on two plain segments. *)
Definition join_slash (a b : string) : string := a ++ "/" ++ b.

(** A directory in which [firebase-debug.log] belongs to another user. *)
Definition locked_first : gmap string Inode :=
  {[ "/work/firebase-debug.log" := {| isFile := true; open_error := Some "EACCES" |} ]}.

Lemma fs_close_succeeds (files : gmap string Inode) :
  close_succeeds (fs_openSync files) fs_closeSync.
Proof. intros p d _. reflexivity. Qed.

Lemma findAvailableLogFile_first_usable_witness :
  findAvailableLogFile join_slash "/work" (fs_openSync locked_first) fs_closeSync
  = Ok "/work/firebase-debug.1.log".
Proof.
  apply (proj1 (proj2 (findAvailableLogFile_first_usable
                         join_slash "/work" (fs_openSync locked_first) fs_closeSync
                         (fs_close_succeeds locked_first)))).
  exists ["firebase-debug.log"], "firebase-debug.1.log",
    ["firebase-debug.2.log"; "firebase-debug.3.log"; "firebase-debug.4.log";
     "firebase-debug.5.log"; "firebase-debug.6.log"; "firebase-debug.7.log";
     "firebase-debug.8.log"; "firebase-debug.9.log"].
  split; [reflexivity|]. split; [|split; [|reflexivity]].
  - constructor; [|constructor]. eexists. split; reflexivity.
  - right. eexists. split; reflexivity.
Defined.

End LogFileWitness.

Section LogFileClaim.
Import Cli.

Variable join : string -> string -> string.
Variable cwd : string.
Variable openSync : string -> result fd.
Variable closeSync : fd -> result unit.

(** The [try] block of candidate [c] ends in [return logFilename]: the
    file opens and the descriptor is closed, or opening or closing fails
    with the code [ENOENT]. *)
Definition returns_at (c : string) : Prop :=
  (exists d, openSync (join cwd c) = Ok d /\ closeSync d = Ok tt)
  \/ (exists e, openSync (join cwd c) = Throw e /\ code e = Some "ENOENT")
  \/ (exists d e, openSync (join cwd c) = Ok d /\ closeSync d = Throw e
                  /\ code e = Some "ENOENT").

(** Candidate [c] is passed over: opening it, or closing its descriptor,
    fails with an error whose code is not [ENOENT]. *)
Definition skipped_at (c : string) : Prop :=
  (exists e, openSync (join cwd c) = Throw e /\ code e <> Some "ENOENT")
  \/ (exists d e, openSync (join cwd c) = Ok d /\ closeSync d = Throw e
                  /\ code e <> Some "ENOENT").

Lemma is_ENOENT_true (e : Error) : is_ENOENT e = true <-> code e = Some "ENOENT".
Proof.
  unfold is_ENOENT. destruct (code e) as [c|]; [|split; discriminate].
  rewrite String.eqb_eq. split; [intros ->; reflexivity|intros [= ->]; reflexivity].
Qed.

Lemma is_ENOENT_false (e : Error) : is_ENOENT e = false <-> code e <> Some "ENOENT".
Proof.
  rewrite <- is_ENOENT_true. destruct (is_ENOENT e); split; congruence.
Qed.

Local Abbreviation loop := (try_candidates join cwd openSync closeSync).

Lemma returns_or_skipped (c : string) : returns_at c \/ skipped_at c.
Proof.
  unfold returns_at, skipped_at.
  destruct (openSync (join cwd c)) as [d|e].
  - destruct (closeSync d) as [[]|e] eqn:Ec; [left; left; eauto|].
    destruct (is_ENOENT e) eqn:E.
    + apply is_ENOENT_true in E. left. right. right. eauto.
    + apply is_ENOENT_false in E. right. right. eauto.
  - destruct (is_ENOENT e) eqn:E.
    + apply is_ENOENT_true in E. left. right. left. eauto.
    + apply is_ENOENT_false in E. right. left. eauto.
Qed.

Lemma returns_not_skipped (c : string) : returns_at c -> ~ skipped_at c.
Proof.
  intros [(d & Ho & Hc)|[(e & Ho & He)|(d & e & Ho & Hc & He)]]
         [(e' & Ho' & He')|(d' & e' & Ho' & Hc' & He')]; congruence.
Qed.

Lemma loop_returns (c : string) (rest : list string) :
  returns_at c -> loop (c :: rest) = Ok (join cwd c).
Proof.
  intros [(d & Ho & Hc)|[(e & Ho & He)|(d & e & Ho & Hc & He)]];
    cbn [try_candidates]; unfold open_and_close; rewrite Ho.
  - rewrite Hc. reflexivity.
  - apply is_ENOENT_true in He. rewrite He. reflexivity.
  - rewrite Hc. apply is_ENOENT_true in He. rewrite He. reflexivity.
Qed.

Lemma loop_skips (c : string) (rest : list string) :
  skipped_at c -> loop (c :: rest) = loop rest.
Proof.
  intros [(e & Ho & He)|(d & e & Ho & Hc & He)];
    cbn [try_candidates]; unfold open_and_close; rewrite Ho.
  - apply is_ENOENT_false in He. rewrite He. reflexivity.
  - rewrite Hc. apply is_ENOENT_false in He. rewrite He. reflexivity.
Qed.

Lemma loop_Ok (cs : list string) (p : string) :
  loop cs = Ok p <->
  exists pre c post,
    cs = (pre ++ c :: post)%list /\ Forall skipped_at pre /\ returns_at c
    /\ p = join cwd c.
Proof.
  revert p. induction cs as [|c rest IH]; intros p.
  - split; [discriminate|].
    intros (pre & c & post & H & _). destruct pre; discriminate H.
  - destruct (returns_or_skipped c) as [Hr|Hs].
    + rewrite (loop_returns c rest Hr). split.
      * intros [= <-]. exists [], c, rest. auto.
      * intros (pre & c' & post & H & Hpre & Hc & ->).
        destruct pre as [|x pre]; simpl in H; injection H as <- _.
        -- reflexivity.
        -- exfalso. apply Forall_cons in Hpre as [Hx _].
           exact (returns_not_skipped _ Hr Hx).
    + rewrite (loop_skips c rest Hs), IH. split.
      * intros (pre & c' & post & -> & Hpre & Hc & ->).
        exists (c :: pre), c', post. auto.
      * intros (pre & c' & post & H & Hpre & Hc & ->).
        destruct pre as [|x pre]; simpl in H; injection H as <- H.
        -- exfalso. exact (returns_not_skipped _ Hc Hs).
        -- apply Forall_cons in Hpre as [_ Hpre]. exists pre, c', post. auto.
Qed.

Lemma loop_Throw (cs : list string) :
  (exists e, loop cs = Throw e) <-> Forall skipped_at cs.
Proof.
  induction cs as [|c rest IH].
  - split; [constructor|]. intros _. eexists. reflexivity.
  - destruct (returns_or_skipped c) as [Hr|Hs].
    + rewrite (loop_returns c rest Hr). split.
      * intros [e He]. discriminate He.
      * intros H. apply Forall_cons in H as [Hc _].
        exfalso. exact (returns_not_skipped _ Hr Hc).
    + rewrite (loop_skips c rest Hs), IH. split.
      * intros H. constructor; assumption.
      * intros H. apply Forall_cons in H as [_ H]. exact H.
Qed.

(** C2, as the code has it: the ten candidates are [firebase-debug.log]
    and [firebase-debug.1.log] to [firebase-debug.9.log], in that order;
    [findAvailableLogFile] returns the path of the first of them that does
    not exist (opening fails with [ENOENT]) or that opens read-write and
    closes again; it throws exactly when every one of the ten is passed
    over, because opening it, or closing its descriptor, fails with an
    error other than [ENOENT]. *)
Theorem findAvailableLogFile_first_returning :
  candidates
  = ["firebase-debug.log"; "firebase-debug.1.log"; "firebase-debug.2.log";
     "firebase-debug.3.log"; "firebase-debug.4.log"; "firebase-debug.5.log";
     "firebase-debug.6.log"; "firebase-debug.7.log"; "firebase-debug.8.log";
     "firebase-debug.9.log"]
  /\ (forall p : string,
         findAvailableLogFile join cwd openSync closeSync = Ok p <->
         exists pre c post,
           candidates = (pre ++ c :: post)%list
           /\ Forall skipped_at pre /\ returns_at c /\ p = join cwd c)
  /\ ((exists e, findAvailableLogFile join cwd openSync closeSync = Throw e) <->
      Forall skipped_at candidates).
Proof.
  split; [reflexivity|]. split.
  - intros p. apply loop_Ok.
  - apply loop_Throw.
Qed.

End LogFileClaim.

Section LogFileClaimInstances.
Import Cli.

(** A platform on which every file opens but no descriptor can be closed. *)
Definition open_always (path : string) : result fd := Ok 3.

Definition close_never (d : fd) : result unit :=
  Throw {| code := Some "EIO"; message := "EIO: i/o error" |}.

(** C2 as stated fails: every one of the ten candidates can be opened for
    read-write, the first included, yet none is returned and the function
    throws. *)
Lemma findAvailableLogFile_all_open_yet_throws :
  Forall (usable join_slash "/work" open_always) candidates
  /\ findAvailableLogFile join_slash "/work" open_always close_never
     = Throw {| code := None;
                message := "Unable to obtain permissions for firebase-debug.log" |}.
Proof.
  split; [|reflexivity].
  assert (Hc : candidates
               = ["firebase-debug.log"; "firebase-debug.1.log";
                  "firebase-debug.2.log"; "firebase-debug.3.log";
                  "firebase-debug.4.log"; "firebase-debug.5.log";
                  "firebase-debug.6.log"; "firebase-debug.7.log";
                  "firebase-debug.8.log"; "firebase-debug.9.log"])
    by reflexivity.
  rewrite Hc.
  repeat (apply List.Forall_cons; [left; exists 3; reflexivity|]).
  apply List.Forall_nil.
Qed.

(** A platform on which the first candidate opens but cannot be closed,
    the second does not exist, and the others are locked. *)
Definition open_first_missing_second (path : string) : result fd :=
  if String.eqb path "/work/firebase-debug.log" then Ok 3
  else if String.eqb path "/work/firebase-debug.1.log" then Throw ENOENT
  else Throw {| code := Some "EACCES"; message := "EACCES" |}.

Lemma findAvailableLogFile_first_returning_witness :
  findAvailableLogFile join_slash "/work" open_first_missing_second close_never
  = Ok "/work/firebase-debug.1.log".
Proof.
  apply (proj1 (proj2 (findAvailableLogFile_first_returning
                         join_slash "/work" open_first_missing_second close_never))).
  exists ["firebase-debug.log"], "firebase-debug.1.log",
    ["firebase-debug.2.log"; "firebase-debug.3.log"; "firebase-debug.4.log";
     "firebase-debug.5.log"; "firebase-debug.6.log"; "firebase-debug.7.log";
     "firebase-debug.8.log"; "firebase-debug.9.log"].
  split; [reflexivity|]. split; [|split; [|reflexivity]].
  - constructor; [|constructor]. right.
    exists 3, {| code := Some "EIO"; message := "EIO: i/o error" |}.
    split; [reflexivity|split; [reflexivity|discriminate]].
  - right. left. exists ENOENT. split; reflexivity.
Defined.

End LogFileClaimInstances.

Section ExitFacts.
Import Cli.

(** The path names an existing file. *)
Definition file_exists (path : string) (p : Process) : bool :=
  match fs p !! path with
  | Some n => isFile n
  | None => false
  end.

(** The environment variable [DEBUG] is set, to whatever value. *)
Definition DEBUG_set (p : Process) : Prop := is_Some (env p !! "DEBUG").

(** The environment variable [DEBUG] is unset, or set to the empty
    string. *)
Definition DEBUG_unset_or_empty (p : Process) : Prop :=
  env p !! "DEBUG" = None \/ env p !! "DEBUG" = Some "".

Lemma env_falsy_DEBUG (p : Process) :
  env_falsy "DEBUG" p = true <-> DEBUG_unset_or_empty p.
Proof.
  unfold env_falsy, DEBUG_unset_or_empty.
  destruct (env p !! "DEBUG") as [v|]; [|tauto].
  rewrite String.eqb_eq. split.
  - intros ->. right. reflexivity.
  - intros [H|H]; [discriminate|]. now injection H.
Qed.

(** A statement that returns normally and leaves the file system alone. *)
Definition keeps_files (m : M unit) : Prop :=
  forall p, fst (m p) = Ok tt /\ fs (snd (m p)) = fs p.

(** The guard of the removal holds. *)
Definition attempts_removal (logFilename : string) (code : Z) (p : Process) : bool :=
  env_falsy "DEBUG" p && (code <? 2)%Z && file_exists logFilename p.

Section Handler.
Variable unlink_refused : string -> option Error.
Variable now : Z.
Variable bold : string -> string.
Variable notify : string -> string -> result unit.

Lemma track_last_error_keeps_files (code : Z) :
  keeps_files (track_last_error now bold code).
Proof.
  intros p.
  cbv [track_last_error mbind M_bind bind gets when modify ret console_log].
  destruct ((0 <? code)%Z && stdoutIsTTY p); [|split; reflexivity].
  destruct (now - 120000 <? default 0%Z (lastError p))%Z; [|split; reflexivity].
  destruct (bool_decide (is_Some (cmd p))); split; reflexivity.
Qed.

Lemma notify_update_keeps_files : keeps_files (notify_update notify).
Proof.
  intros p.
  cbv [notify_update try_catch mbind M_bind bind gets lift modify logger_debug].
  destruct (notify _ _) as [[]|e]; split; reflexivity.
Qed.

(** The first statement: nothing when the guard fails; otherwise the
    removal, or the error with which it is refused. *)
Lemma remove_log_file_effect (logFilename : string) (code : Z) (p : Process) :
  remove_log_file unlink_refused logFilename code p
  = if attempts_removal logFilename code p
    then match unlink_refused logFilename with
         | Some e => (Throw e, p)
         | None => (Ok tt, set_fs (delete logFilename) p)
         end
    else (Ok tt, p).
Proof.
  unfold attempts_removal, file_exists.
  cbv [remove_log_file mbind M_bind bind gets fileExistsSync when unlinkSync ret].
  destruct (env_falsy "DEBUG" p); [|reflexivity].
  destruct (code <? 2)%Z; [|reflexivity]. cbn [andb].
  destruct (fs p !! logFilename) as [n|] eqn:E; [|reflexivity].
  destruct (isFile n); [|reflexivity].
  rewrite E. reflexivity.
Qed.

(** When the removal is attempted and refused, the error leaves the
    listener at once. *)
Lemma on_exit_refused (logFilename : string) (code : Z) (p : Process) (e : Error) :
  attempts_removal logFilename (effective_code code p) p = true ->
  unlink_refused logFilename = Some e ->
  on_exit unlink_refused now bold notify logFilename code p = (Throw e, p).
Proof.
  intros Ha Hr. unfold on_exit. cbv [mbind M_bind bind gets].
  rewrite remove_log_file_effect, Ha, Hr. reflexivity.
Qed.

(** Otherwise the listener returns, and this is what it has done to the
    file system. *)
Lemma on_exit_files (logFilename : string) (code : Z) (p : Process) :
  attempts_removal logFilename (effective_code code p) p = false
  \/ unlink_refused logFilename = None ->
  let r := on_exit unlink_refused now bold notify logFilename code p in
  fst r = Ok tt
  /\ fs (snd r)
     = if attempts_removal logFilename (effective_code code p) p
       then delete logFilename (fs p) else fs p.
Proof.
  intros Hcase. cbv zeta. unfold on_exit. cbv [mbind M_bind bind gets].
  rewrite remove_log_file_effect.
  assert (Hfirst :
    (if attempts_removal logFilename (effective_code code p) p
     then match unlink_refused logFilename with
          | Some e => (Throw e, p)
          | None => (Ok tt, set_fs (delete logFilename) p)
          end
     else (Ok tt, p))
    = (Ok tt, if attempts_removal logFilename (effective_code code p) p
              then set_fs (delete logFilename) p else p)).
  { destruct Hcase as [H|H]; rewrite H; [reflexivity|].
    destruct (attempts_removal logFilename (effective_code code p) p);
      reflexivity. }
  rewrite Hfirst. clear Hfirst.
  set (p1 := if attempts_removal logFilename (effective_code code p) p
             then set_fs (delete logFilename) p else p).
  destruct (track_last_error_keeps_files (effective_code code p) p1) as [Ht Hf].
  destruct (track_last_error now bold (effective_code code p) p1) as [r2 p2].
  simpl in Ht, Hf. subst r2.
  destruct (notify_update_keeps_files p2) as [Hn Hg].
  split; [exact Hn|].
  rewrite Hg, Hf. unfold p1.
  destruct (attempts_removal logFilename (effective_code code p) p); reflexivity.
Qed.

Lemma deletion_condition (logFilename : string) (code : Z) (p : Process) :
  attempts_removal logFilename (effective_code code p) p = true
  <-> DEBUG_unset_or_empty p /\ (effective_code code p < 2)%Z
      /\ file_exists logFilename p = true.
Proof.
  unfold attempts_removal.
  rewrite !andb_true_iff, env_falsy_DEBUG, Z.ltb_lt. tauto.
Qed.

(** C6, as the code has it: the [exit] listener deletes the log file
    exactly when [DEBUG] is unset or empty, the effective exit code is less
    than 2, the log file exists and [fs.unlinkSync] does not refuse; when
    [DEBUG] holds a non-empty value or the effective exit code is 2 or
    greater, no removal is attempted and the file system is left as it
    was.  When the removal is attempted and refused, that error leaves the
    listener with nothing else done. *)
Theorem on_exit_deletes_log_iff (logFilename : string) (code : Z) (p : Process) :
  let r := on_exit unlink_refused now bold notify logFilename code p in
  ((file_exists logFilename p = true /\ fs (snd r) !! logFilename = None) <->
   (DEBUG_unset_or_empty p /\ (effective_code code p < 2)%Z
    /\ file_exists logFilename p = true
    /\ unlink_refused logFilename = None))
  /\ (~ DEBUG_unset_or_empty p \/ (2 <= effective_code code p)%Z ->
      fs (snd r) = fs p)
  /\ (forall e,
         DEBUG_unset_or_empty p -> (effective_code code p < 2)%Z ->
         file_exists logFilename p = true ->
         unlink_refused logFilename = Some e ->
         r = (Throw e, p)).
Proof.
  cbv zeta.
  pose proof (deletion_condition logFilename code p) as Hcond.
  destruct (attempts_removal logFilename (effective_code code p) p) eqn:Ea.
  - apply proj1 in Hcond. specialize (Hcond eq_refl).
    destruct (unlink_refused logFilename) as [e|] eqn:Er.
    + rewrite (on_exit_refused logFilename code p e Ea Er). cbn [fst snd].
      split; [|split].
      * split.
        -- intros [Hex Hnone]. unfold file_exists in Hex.
           rewrite Hnone in Hex. discriminate Hex.
        -- intros (_ & _ & _ & H). discriminate H.
      * intros [H|H]; [tauto|lia].
      * intros e' _ _ _ [= <-]. reflexivity.
    + destruct (on_exit_files logFilename code p (or_intror Er)) as [Hok Hfs].
      cbv zeta in Hok, Hfs. rewrite Ea in Hfs.
      split; [|split].
      * rewrite Hfs. split; [intros _; tauto|].
        intros _. split; [tauto|apply lookup_delete_eq].
      * intros [H|H]; [tauto|lia].
      * intros e _ _ _ H. discriminate H.
  - destruct (on_exit_files logFilename code p (or_introl Ea)) as [Hok Hfs].
    cbv zeta in Hok, Hfs. rewrite Ea in Hfs.
    split; [|split].
    + rewrite Hfs. split.
      * intros [Hex Hnone]. unfold file_exists in Hex.
        rewrite Hnone in Hex. discriminate Hex.
      * intros (H1 & H2 & H3 & _).
        assert (Ht : false = true) by (apply Hcond; tauto).
        discriminate Ht.
    + intros _. exact Hfs.
    + intros e H1 H2 H3 _.
      assert (Ht : false = true) by (apply Hcond; tauto).
      discriminate Ht.
Qed.

End Handler.

(** A file system that never refuses a removal. *)
Definition never_refused (path : string) : option Error := None.

(** A process started with [DEBUG=] (set, to the empty string), whose log
    file exists. *)
Definition process_with_empty_DEBUG : Process :=
  {| env := {[ "DEBUG" := "" ]};
     exitCode := None;
     stdoutIsTTY := false;
     fs := {[ "/work/firebase-debug.log" := {| isFile := true; open_error := None |} ]};
     lastError := None;
     stdout := [];
     transports := ["/work/firebase-debug.log"];
     debugLog := [];
     exitListeners := [OnExit "/work/firebase-debug.log"];
     uncaughtListeners := [CallErrorOut];
     cmd := None;
     errorOutCalls := [] |}.

(** C6 as stated fails: [DEBUG] is set, yet on a clean exit the log file
    is deleted, not retained. *)
Lemma on_exit_DEBUG_set_empty_deletes_log :
  DEBUG_set process_with_empty_DEBUG
  /\ file_exists "/work/firebase-debug.log" process_with_empty_DEBUG = true
  /\ fs (snd (on_exit never_refused 0 (fun s => s) (fun _ _ => Ok tt)
                "/work/firebase-debug.log" 0 process_with_empty_DEBUG))
       !! "/work/firebase-debug.log" = None.
Proof.
  split; [|split].
  - unfold DEBUG_set. simpl. rewrite lookup_singleton_eq. eauto.
  - reflexivity.
  - vm_compute. reflexivity.
Qed.

(** The same process with [DEBUG] unset, and with [DEBUG=true]. *)
Definition process_without_DEBUG : Process :=
  set_env (delete "DEBUG") process_with_empty_DEBUG.

Definition process_with_DEBUG : Process :=
  set_env (insert "DEBUG" "true") process_with_empty_DEBUG.

Lemma on_exit_deletes_log_iff_witness :
  (file_exists "/work/firebase-debug.log" process_without_DEBUG = true
   /\ fs (snd (on_exit never_refused 0 (fun s => s) (fun _ _ => Ok tt)
                 "/work/firebase-debug.log" 1 process_without_DEBUG))
        !! "/work/firebase-debug.log" = None)
  /\ fs (snd (on_exit never_refused 0 (fun s => s) (fun _ _ => Ok tt)
                "/work/firebase-debug.log" 0 process_with_DEBUG))
     = fs process_with_DEBUG.
Proof.
  split.
  - apply (proj1 (on_exit_deletes_log_iff never_refused 0 (fun s => s)
                    (fun _ _ => Ok tt)
                    "/work/firebase-debug.log" 1 process_without_DEBUG)).
    split; [left; reflexivity|].
    split; [vm_compute; reflexivity|]. split; reflexivity.
  - apply (proj1 (proj2 (on_exit_deletes_log_iff never_refused 0 (fun s => s)
                           (fun _ _ => Ok tt)
                           "/work/firebase-debug.log" 0 process_with_DEBUG))).
    left. intros [H|H]; vm_compute in H; discriminate H.
Defined.

End ExitFacts.

Section UncaughtFacts.
Import Cli.

Section Bootstrap.
Variable join : string -> string -> string.
Variable cwd : string.
Variable pkgVersion platform nodeVersion date : string.
Variable envOverrides : list string.
Variable handlePreviewToggles : list string -> bool.
Variable parse : list string -> result string.

Local Abbreviation startup :=
  (startup join cwd pkgVersion platform nodeVersion date envOverrides).
Local Abbreviation cli :=
  (cli join cwd pkgVersion platform nodeVersion date envOverrides
       handlePreviewToggles parse).
Local Abbreviation main :=
  (main join cwd pkgVersion platform nodeVersion date envOverrides
        handlePreviewToggles parse).
Local Abbreviation select_log p :=
  (findAvailableLogFile join cwd (fs_openSync (fs p)) fs_closeSync).

(** When no log file can be had, [startup] throws before it has changed
    anything. *)
Lemma startup_throws (argv : list string) (p : Process) (e : Error) :
  select_log p = Throw e -> startup argv p = (Throw e, p).
Proof.
  intros H. cbv [Cli.startup mbind M_bind bind gets lift]. rewrite H. reflexivity.
Qed.

(** When a log file is found, [startup] returns it, having appended one
    listener of each kind and called [errorOut] not at all. *)
Lemma startup_registers (argv : list string) (p : Process) (logFilename : string) :
  select_log p = Ok logFilename ->
  exists p',
    startup argv p = (Ok logFilename, p')
    /\ exitListeners p' = (exitListeners p ++ [OnExit logFilename])%list
    /\ uncaughtListeners p' = (uncaughtListeners p ++ [CallErrorOut])%list
    /\ errorOutCalls p' = errorOutCalls p.
Proof.
  intros H.
  cbv [Cli.startup mbind M_bind bind gets lift when modify ret logger_debug mret M_ret].
  rewrite H.
  destruct (env_falsy "DEBUG" p && includes "--debug" (drop 2 argv));
    destruct (negb (Nat.eqb (length envOverrides) 0));
    eexists; (split; [reflexivity|]); repeat split; reflexivity.
Qed.

(** The command dispatch leaves the listeners alone and does not call
    [errorOut]. *)
Lemma dispatch_listeners (argv : list string) (p : Process) :
  let r := dispatch handlePreviewToggles parse argv p in
  uncaughtListeners (snd r) = uncaughtListeners p
  /\ exitListeners (snd r) = exitListeners p
  /\ errorOutCalls (snd r) = errorOutCalls p.
Proof.
  cbv [dispatch mbind M_bind bind lift modify ret].
  destruct (negb (handlePreviewToggles (drop 2 argv))); [|repeat split].
  destruct (Nat.eqb (length (drop 2 argv)) 0); [repeat split|].
  destruct (parse argv); repeat split.
Qed.

(** C7, as the code has it: when the log file selection succeeds and no
    [uncaughtException] listener was there before, [cli] leaves exactly one,
    its own; from then on every exception that nobody caught, one thrown by
    the command dispatch of [cli] itself included, is handed to that
    listener, which calls [errorOut] on it once, and is not left to the
    default crash. *)
Theorem cli_registers_errorOut_listener
    (argv : list string) (p : Process) (logFilename : string) :
  uncaughtListeners p = [] ->
  select_log p = Ok logFilename ->
  exists r p1,
    cli argv p = (r, p1)
    /\ uncaughtListeners p1 = [CallErrorOut]
    /\ (forall err,
           uncaughtException err p1
           = Handled (set_errorOutCalls (fun l => (l ++ [err])%list) p1))
    /\ (forall e, r = Throw e ->
                  main argv p
                  = Handled (set_errorOutCalls (fun l => (l ++ [e])%list) p1))
    /\ (forall a, r = Ok a -> main argv p = Running p1).
Proof.
  intros Hnone Hlog.
  destruct (startup_registers argv p logFilename Hlog)
    as (p0 & Hs & _ & Hu & _).
  rewrite Hnone in Hu. simpl in Hu.
  pose proof (dispatch_listeners argv p0) as Hd. cbv zeta in Hd.
  destruct Hd as (Hdu & _ & _).
  assert (Hcli : cli argv p = dispatch handlePreviewToggles parse argv p0).
  { unfold Cli.cli. cbv [mbind M_bind bind]. rewrite Hs. reflexivity. }
  destruct (dispatch handlePreviewToggles parse argv p0) as [r p1] eqn:Ed.
  simpl in Hdu. rewrite Hu in Hdu.
  assert (Hdeliver : forall err,
             uncaughtException err p1
             = Handled (set_errorOutCalls (fun l => (l ++ [err])%list) p1)).
  { intros err. unfold uncaughtException. rewrite Hdu. reflexivity. }
  exists r, p1. split; [exact Hcli|]. split; [exact Hdu|].
  split; [exact Hdeliver|]. split.
  - intros e ->. unfold Cli.main. rewrite Hcli. apply Hdeliver.
  - intros a ->. unfold Cli.main. rewrite Hcli. reflexivity.
Qed.

End Bootstrap.

(** A working directory in which all ten candidates belong to another
    user. *)
Definition all_locked : gmap string Inode :=
  list_to_map
    (map (fun c => (join_slash "/work" c,
                    {| isFile := true; open_error := Some "EACCES" |}))
         candidates).

Definition fresh_process (files : gmap string Inode) : Process :=
  {| env := ∅; exitCode := None; stdoutIsTTY := true; fs := files;
     lastError := None; stdout := []; transports := []; debugLog := [];
     exitListeners := []; uncaughtListeners := []; cmd := None;
     errorOutCalls := [] |}.

(** C7 as stated fails: the error [findAvailableLogFile] throws leaves
    [cli] before any listener is registered, so it reaches the process
    level with no handler and [errorOut] is never called. *)
Lemma startup_error_bypasses_errorOut :
  main join_slash "/work" "14.0.0" "linux" "v20.0.0" "Tue Nov 03 2026" []
       (fun _ => false) (fun _ => Ok "deploy")
       ["node"; "firebase"; "deploy"] (fresh_process all_locked)
  = Crashed {| code := None;
               message := "Unable to obtain permissions for firebase-debug.log" |}
            (fresh_process all_locked).
Proof. vm_compute. reflexivity. Qed.

Lemma cli_registers_errorOut_listener_witness :
  exists r p1,
    Cli.cli join_slash "/work" "14.0.0" "linux" "v20.0.0" "Tue Nov 03 2026" []
            (fun _ => false) (fun _ => Throw {| code := None; message := "boom" |})
            ["node"; "firebase"; "deploy"] (fresh_process locked_first)
    = (r, p1)
    /\ uncaughtListeners p1 = [CallErrorOut]
    /\ Cli.main join_slash "/work" "14.0.0" "linux" "v20.0.0" "Tue Nov 03 2026" []
            (fun _ => false) (fun _ => Throw {| code := None; message := "boom" |})
            ["node"; "firebase"; "deploy"] (fresh_process locked_first)
       = Handled (set_errorOutCalls
                    (fun l => (l ++ [{| code := None; message := "boom" |}])%list) p1).
Proof.
  destruct (cli_registers_errorOut_listener
              join_slash "/work" "14.0.0" "linux" "v20.0.0" "Tue Nov 03 2026" []
              (fun _ => false) (fun _ => Throw {| code := None; message := "boom" |})
              ["node"; "firebase"; "deploy"] (fresh_process locked_first)
              "/work/firebase-debug.1.log" eq_refl
              ltac:(vm_compute; reflexivity))
    as (r & p1 & Hcli & Hone & _ & Hthrow & _).
  exists r, p1. split; [exact Hcli|]. split; [exact Hone|].
  apply Hthrow.
  assert (Hr : fst (Cli.cli join_slash "/work" "14.0.0" "linux" "v20.0.0"
                      "Tue Nov 03 2026" [] (fun _ => false)
                      (fun _ => Throw {| code := None; message := "boom" |})
                      ["node"; "firebase"; "deploy"] (fresh_process locked_first))
               = Throw {| code := None; message := "boom" |})
    by (vm_compute; reflexivity).
  rewrite Hcli in Hr. exact Hr.
Defined.

End UncaughtFacts.

(* ===================================================================== *)
(** * Properties of the disable_user tool handler *)
(* ===================================================================== *)

Section DisableUserFacts.
Import Js DisableUser.

Section Handler.
Variable Project : Type.
Variable CallToolResult : Type.
Variable mcpError : string -> CallToolResult.
Variable toContent : Project -> CallToolResult.

Local Abbreviation handler := (handler Project CallToolResult mcpError toContent).

(** The ambient project identifier is absent: [undefined], or the empty
    string. *)
Definition projectId_absent (ctx : Context) : Prop :=
  projectId ctx = None \/ projectId ctx = Some "".

Lemma projectId_falsy_absent (ctx : Context) :
  projectId_falsy (projectId ctx) = true <-> projectId_absent ctx.
Proof.
  unfold projectId_falsy, projectId_absent.
  destruct (projectId ctx) as [s|]; [|tauto].
  rewrite String.eqb_eq. split.
  - intros ->. right. reflexivity.
  - intros [H|H]; [discriminate|]. now injection H.
Qed.

Lemma handler_without_project (uid : string) (disable : bool) (ctx : Context)
    (r : Remote Project) :
  projectId_absent ctx ->
  handler uid disable ctx r = (Ok (mcpError "No current project detected."), r).
Proof.
  intros [H|H]; unfold DisableUser.handler; rewrite H; reflexivity.
Qed.

Lemma handler_with_project (uid : string) (disable : bool) (ctx : Context)
    (r : Remote Project) (pid : string) :
  projectId ctx = Some pid -> pid <> "" ->
  handler uid disable ctx r
  = (match fetch_project r pid with
     | Ok project => Ok (toContent project)
     | Throw e => Throw e
     end, r).
Proof.
  intros H Hne. unfold DisableUser.handler. rewrite H. simpl.
  apply String.eqb_neq in Hne. rewrite Hne.
  unfold getProject. destruct (fetch_project r pid); reflexivity.
Qed.

(** C5: without a project identifier the handler resolves, without
    throwing, to the error object for [No current project detected.];
    otherwise it resolves to the content of the project that
    [getProject(projectId)] fetched; and in no case is the remote state,
    the [disabled] flag of the user [uid] in particular, changed, nor do
    [uid] and [disable] influence anything. *)
Theorem handler_contract (uid : string) (disable : bool) (ctx : Context)
    (r : Remote Project) :
  (projectId_absent ctx ->
   handler uid disable ctx r = (Ok (mcpError "No current project detected."), r))
  /\ (forall (pid : string) (project : Project),
         ~ projectId_absent ctx -> projectId ctx = Some pid ->
         fst (getProject pid r) = Ok project ->
         fst (handler uid disable ctx r) = Ok (toContent project))
  /\ snd (handler uid disable ctx r) = r
  /\ disabled (snd (handler uid disable ctx r)) !! uid = disabled r !! uid
  /\ (forall (uid' : string) (disable' : bool),
         handler uid' disable' ctx r = handler uid disable ctx r).
Proof.
  assert (Hstate : snd (handler uid disable ctx r) = r).
  { destruct (projectId ctx) as [pid|] eqn:E.
    - destruct (String.eqb pid "") eqn:Ee.
      + apply String.eqb_eq in Ee. subst pid.
        rewrite handler_without_project by (right; exact E). reflexivity.
      + apply String.eqb_neq in Ee.
        rewrite (handler_with_project uid disable ctx r pid E Ee). reflexivity.
    - rewrite handler_without_project by (left; exact E). reflexivity. }
  split; [apply handler_without_project|].
  split; [|split; [exact Hstate|split; [now rewrite Hstate|reflexivity]]].
  intros pid project Hpresent E Hfetch.
  assert (Hne : pid <> "").
  { intros ->. apply Hpresent. right. exact E. }
  rewrite (handler_with_project uid disable ctx r pid E Hne).
  simpl in *. rewrite Hfetch. reflexivity.
Qed.

End Handler.

(** One project and one enabled user. *)
Definition demo_remote : Remote string :=
  {| fetch_project := fun pid =>
       if String.eqb pid "demo-project" then Ok "projects/demo-project"
       else Throw {| code := None; message := "not found" |};
     disabled := {[ "user-1" := false ]} |}.

Lemma handler_contract_witness :
  handler string (bool * string) (fun m => (true, m)) (fun p => (false, p))
    "user-1" true {| projectId := None |} demo_remote
  = (Ok (true, "No current project detected."), demo_remote)
  /\ fst (handler string (bool * string) (fun m => (true, m)) (fun p => (false, p))
            "user-1" true {| projectId := Some "demo-project" |} demo_remote)
     = Ok (false, "projects/demo-project").
Proof.
  split.
  - apply (proj1 (handler_contract string (bool * string)
                    (fun m => (true, m)) (fun p => (false, p))
                    "user-1" true {| projectId := None |} demo_remote)).
    left. reflexivity.
  - apply (proj1 (proj2 (handler_contract string (bool * string)
                    (fun m => (true, m)) (fun p => (false, p))
                    "user-1" true {| projectId := Some "demo-project" |} demo_remote))
             "demo-project" "projects/demo-project").
    + intros [H|H]; discriminate H.
    + reflexivity.
    + reflexivity.
Defined.

End DisableUserFacts.

(* ===================================================================== *)
(** * Further properties of the path functions *)
(* ===================================================================== *)

Section PathComposition.
Import NextUtils.

Lemma cleanEscapedChars_step (a b : ascii) (rest : string) :
  cleanEscapedChars (String a (String b rest))
  = if Ascii.eqb a backslash && isEscapable b
    then String b (cleanEscapedChars rest)
    else String a (cleanEscapedChars (String b rest)).
Proof. reflexivity. Qed.

Lemma test_unescaped_paren_step (prev : option ascii) (c : ascii) (rest : string) :
  test_unescaped_paren prev (String c rest)
  = (lookbehind_not_backslash prev && Ascii.eqb c lparen)
    || test_unescaped_paren (Some c) rest.
Proof. reflexivity. Qed.

(** Removing the escapes never hides a regex: the parenthesis that made
    [pathHasRegex] answer [true] is still there, and still has no
    backslash in front of it. *)
Lemma test_unescaped_paren_clean (n : nat) :
  forall (s : string) (prev prev' : option ascii),
    String.length s <= n ->
    (lookbehind_not_backslash prev = true ->
     lookbehind_not_backslash prev' = true) ->
    test_unescaped_paren prev s = true ->
    test_unescaped_paren prev' (cleanEscapedChars s) = true.
Proof.
  induction n as [|n IH]; intros s prev prev' Hn Hlb Ht.
  - destruct s; [discriminate Ht|simpl in Hn; lia].
  - destruct s as [|a tl]; [discriminate Ht|].
    rewrite test_unescaped_paren_step in Ht.
    destruct tl as [|b rest].
    + change (cleanEscapedChars (String a "")) with (String a "").
      rewrite test_unescaped_paren_step.
      apply orb_true_iff in Ht as [Ht|Ht]; [|discriminate Ht].
      apply andb_true_iff in Ht as [H1 H2].
      rewrite (Hlb H1), H2. reflexivity.
    + rewrite cleanEscapedChars_step.
      destruct (Ascii.eqb a backslash && isEscapable b) eqn:E.
      * apply andb_true_iff in E as [Ea _].
        assert (Hal : Ascii.eqb a lparen = false).
        { apply Ascii.eqb_eq in Ea. subst a. reflexivity. }
        rewrite Hal, andb_false_r in Ht. cbn [orb] in Ht.
        rewrite test_unescaped_paren_step in Ht.
        cbn [lookbehind_not_backslash] in Ht. rewrite Ea in Ht.
        cbn [negb andb orb] in Ht.
        rewrite test_unescaped_paren_step.
        rewrite (IH rest (Some b) (Some b)); [apply orb_true_r| |auto|exact Ht].
        simpl in Hn. lia.
      * rewrite test_unescaped_paren_step.
        apply orb_true_iff in Ht as [Ht|Ht].
        -- apply andb_true_iff in Ht as [H1 H2].
           rewrite (Hlb H1), H2. reflexivity.
        -- rewrite (IH (String b rest) (Some a) (Some a));
             [apply orb_true_r| |auto|exact Ht].
           simpl in Hn |- *. lia.
Qed.

(** X1: a path that has a regex still has one after its escapes are
    removed. *)
Theorem pathHasRegex_cleanEscapedChars (path : string) :
  pathHasRegex path = true ->
  pathHasRegex (cleanEscapedChars path) = true.
Proof.
  unfold pathHasRegex.
  apply (test_unescaped_paren_clean (String.length path)); auto.
Qed.

Lemma pathHasRegex_cleanEscapedChars_witness :
  pathHasRegex "/post/\:id/:slug(\d{1,})" = true
  /\ pathHasRegex (cleanEscapedChars "/post/\:id/:slug(\d{1,})") = true.
Proof.
  split; [reflexivity|].
  apply pathHasRegex_cleanEscapedChars. reflexivity.
Defined.

(** The other direction fails: removing the escape of [\(] exposes the
    parenthesis. *)
Example pathHasRegex_after_clean :
  pathHasRegex "/a\(b\)" = false
  /\ pathHasRegex (cleanEscapedChars "/a\(b\)") = true.
Proof. split; reflexivity. Qed.

(** The last character of a string. *)
Fixpoint last_char (s : string) : option ascii :=
  match s with
  | EmptyString => None
  | String a EmptyString => Some a
  | String _ tl => last_char tl
  end.

Lemma cleanEscapedChars_app_aux (n : nat) :
  forall s t : string,
    String.length s <= n ->
    last_char s <> Some backslash ->
    cleanEscapedChars (s ++ t) = (cleanEscapedChars s ++ cleanEscapedChars t)%string.
Proof.
  induction n as [|n IH]; intros s t Hn Hl.
  - destruct s; [reflexivity|simpl in Hn; lia].
  - destruct s as [|a tl]; [reflexivity|].
    destruct tl as [|b rest].
    + change (String a "" ++ t)%string with (String a t).
      assert (Ha : Ascii.eqb a backslash = false).
      { destruct (Ascii.eqb a backslash) eqn:E; [|reflexivity].
        apply Ascii.eqb_eq in E. subst a. exfalso. apply Hl. reflexivity. }
      destruct t as [|b t']; [reflexivity|].
      rewrite cleanEscapedChars_step, Ha. reflexivity.
    + change (String a (String b rest) ++ t)%string
        with (String a (String b (rest ++ t))).
      rewrite !cleanEscapedChars_step.
      destruct (Ascii.eqb a backslash && isEscapable b).
      * change (String b (cleanEscapedChars rest) ++ cleanEscapedChars t)%string
          with (String b (cleanEscapedChars rest ++ cleanEscapedChars t)).
        f_equal. destruct rest as [|c rest']; [reflexivity|].
        apply IH; [simpl in Hn |- *; lia|exact Hl].
      * change (String a (cleanEscapedChars (String b rest)) ++ cleanEscapedChars t)%string
          with (String a (cleanEscapedChars (String b rest) ++ cleanEscapedChars t)).
        f_equal.
        change (String b (rest ++ t)) with (String b rest ++ t)%string.
        apply IH; [simpl in Hn |- *; lia|exact Hl].
Qed.

(** X2: the escapes of a path built from two parts can be removed part by
    part, unless the first part ends with a backslash (which could escape
    the first character of the second). *)
Theorem cleanEscapedChars_app (s t : string) :
  last_char s <> Some backslash ->
  cleanEscapedChars (s ++ t) = (cleanEscapedChars s ++ cleanEscapedChars t)%string.
Proof. apply (cleanEscapedChars_app_aux (String.length s)). apply le_n. Qed.

Lemma cleanEscapedChars_app_witness :
  cleanEscapedChars ("/blog/\(a\)" ++ "/\:id")
  = (cleanEscapedChars "/blog/\(a\)" ++ cleanEscapedChars "/\:id")%string.
Proof. apply cleanEscapedChars_app. discriminate. Defined.

(** Without the condition it fails. *)
Example cleanEscapedChars_app_backslash :
  cleanEscapedChars ("a\" ++ "(b") = "a(b"
  /\ (cleanEscapedChars "a\" ++ cleanEscapedChars "(b")%string = "a\(b".
Proof. split; reflexivity. Qed.

End PathComposition.

Section MoreRouteFacts.
Import NextUtils.

(** Every opening parenthesis [(] of the path has a backslash [\]
    immediately in front of it. *)
Definition every_paren_escaped (path : string) : Prop :=
  forall i, String.get i path = Some "("%char ->
            exists j, i = S j /\ String.get j path = Some "\"%char.

Lemma get_pred_Some (s : string) :
  forall j c, String.get (S j) s = Some c -> exists d, String.get j s = Some d.
Proof.
  induction s as [|a s IH]; intros j c H; [discriminate H|].
  destruct j as [|j]; [eauto|]. simpl in H |- *. exact (IH j c H).
Qed.

Lemma pathHasRegex_false_iff (path : string) :
  pathHasRegex path = false <-> every_paren_escaped path.
Proof.
  unfold pathHasRegex, every_paren_escaped. split.
  - intros Hf i Hi.
    destruct i as [|j].
    + exfalso. apply not_true_iff_false in Hf. apply Hf.
      apply test_unescaped_paren_spec. exists 0. split; [exact Hi|reflexivity].
    + exists j. split; [reflexivity|].
      destruct (get_pred_Some path j _ Hi) as [d Hd].
      destruct (Ascii.eqb d backslash) eqn:E.
      * apply Ascii.eqb_eq in E. subst d. exact Hd.
      * exfalso. apply not_true_iff_false in Hf. apply Hf.
        apply test_unescaped_paren_spec. exists (S j). split; [exact Hi|].
        rewrite Hd. intros [= ->]. unfold backslash in E.
        rewrite Ascii.eqb_refl in E. discriminate E.
  - intros He. apply not_true_iff_false. intros Ht.
    apply test_unescaped_paren_spec in Ht as [i [Hi Hp]].
    destruct (He i Hi) as [j [-> Hj]]. exact (Hp Hj).
Qed.

(** X3: a custom header is supported exactly when it has no [has]
    property and every opening parenthesis of its source is escaped; a
    supported rewrite or redirect is therefore also supported as a header
    of the same source and properties. *)
Theorem isHeaderSupportedByHosting_spec :
  (forall header : Header.t,
      isHeaderSupportedByHosting header = true <->
      ~ has_property "has" (Header.props header)
      /\ every_paren_escaped (Header.source header))
  /\ (forall (isUrl : string -> bool) (rewrite : Rewrite.t)
             (headers : list (string * string)),
         isRewriteSupportedByHosting isUrl rewrite = true ->
         isHeaderSupportedByHosting
           {| Header.source := Rewrite.source rewrite; Header.headers := headers;
              Header.props := Rewrite.props rewrite |} = true)
  /\ (forall (redirect : Redirect.t) (headers : list (string * string)),
         isRedirectSupportedByHosting redirect = true ->
         isHeaderSupportedByHosting
           {| Header.source := Redirect.source redirect; Header.headers := headers;
              Header.props := Redirect.props redirect |} = true).
Proof.
  split; [|split].
  - intros header. unfold isHeaderSupportedByHosting.
    rewrite negb_true_iff, orb_false_iff, key_in_false, pathHasRegex_false_iff.
    tauto.
  - intros isUrl rewrite headers.
    unfold isRewriteSupportedByHosting, isHeaderSupportedByHosting. simpl.
    rewrite !negb_true_iff, !orb_false_iff. tauto.
  - intros redirect headers.
    unfold isRedirectSupportedByHosting, isHeaderSupportedByHosting. simpl.
    rewrite !negb_true_iff, !orb_false_iff. tauto.
Qed.

Lemma isHeaderSupportedByHosting_spec_witness :
  isHeaderSupportedByHosting
    {| Header.source := "/old"; Header.headers := [("x-frame-options", "DENY")];
       Header.props := {[ "permanent" := JBool true ]} |} = true.
Proof.
  assert (Hr : isRedirectSupportedByHosting
                 {| Redirect.source := "/old"; Redirect.destination := "/new";
                    Redirect.props := {[ "permanent" := JBool true ]} |} = true)
    by (vm_compute; reflexivity).
  exact (proj2 (proj2 isHeaderSupportedByHosting_spec) _
           [("x-frame-options", "DENY")] Hr).
Defined.

(** The manifest is as its type says: a [beforeFiles] that counts is a
    list. *)
Definition beforeFiles_is_list (v : jsval) : Prop :=
  forall props w,
    v = JObject props -> props !! "beforeFiles" = Some w ->
    truthy w = true -> isArray w = true.

(** X4: on such a manifest the selector always yields an array, and
    applying it to its own result changes nothing. *)
Theorem getNextjsRewritesToUse_array (v : jsval) :
  beforeFiles_is_list v ->
  isArray (getNextjsRewritesToUse v) = true
  /\ getNextjsRewritesToUse (getNextjsRewritesToUse v) = getNextjsRewritesToUse v.
Proof.
  intros Hv.
  assert (Ha : isArray (getNextjsRewritesToUse v) = true).
  { unfold getNextjsRewritesToUse.
    destruct v as [| |b|n|s|items|props]; try reflexivity.
    simpl. destruct (props !! "beforeFiles") as [w|] eqn:E; [|reflexivity].
    simpl. destruct (truthy w) eqn:Et; [|reflexivity].
    exact (Hv props w eq_refl E Et). }
  split; [exact Ha|].
  destruct (getNextjsRewritesToUse v); try discriminate Ha. reflexivity.
Qed.

Lemma getNextjsRewritesToUse_array_witness :
  isArray (getNextjsRewritesToUse
             (JObject {[ "beforeFiles" := JArray [JString "r"] ]})) = true
  /\ getNextjsRewritesToUse
       (getNextjsRewritesToUse (JObject {[ "beforeFiles" := JArray [JString "r"] ]}))
     = getNextjsRewritesToUse (JObject {[ "beforeFiles" := JArray [JString "r"] ]}).
Proof.
  apply getNextjsRewritesToUse_array.
  intros props w [= <-] Hw _.
  rewrite lookup_singleton_eq in Hw. injection Hw as <-. reflexivity.
Defined.

(** An ill-typed [beforeFiles] comes back as it is. *)
Example getNextjsRewritesToUse_not_a_list :
  getNextjsRewritesToUse (JObject {[ "beforeFiles" := JString "oops" ]})
  = JString "oops".
Proof. reflexivity. Qed.

(** X5: middleware is in use exactly when the manifest object has at
    least one key. *)
Theorem isUsingMiddleware_iff (middleware : gmap string jsval) :
  isUsingMiddleware middleware = true <->
  exists key, has_property key middleware.
Proof.
  unfold isUsingMiddleware, Object_keys, has_property.
  rewrite Nat.ltb_lt, length_fmap.
  split.
  - intros H. destruct (map_choose middleware) as (k & x & Hk).
    + intros ->. rewrite map_to_list_empty in H. simpl in H. lia.
    + exists k. eauto.
  - intros [k [x Hk]].
    destruct (map_to_list middleware) as [|kv l] eqn:E; [|simpl; lia].
    apply map_to_list_empty_iff in E. subst middleware.
    rewrite lookup_empty in Hk. discriminate Hk.
Qed.

End MoreRouteFacts.

(* ===================================================================== *)
(** * Further properties of the CLI bootstrap *)
(* ===================================================================== *)

Section LogFileSelection.
Import Cli.

Variable join : string -> string -> string.
Variable cwd : string.
Variable openSync : string -> result fd.
Variable closeSync : fd -> result unit.

(** The [try] block for candidate [c] ends in [return logFilename]: it ran
    through, or it threw an error whose code is [ENOENT]. *)
Definition accepts (c : string) : bool :=
  match open_and_close openSync closeSync (join cwd c) with
  | Ok _ => true
  | Throw e => is_ENOENT e
  end.

(** The error of the final [throw]. *)
Definition no_log_file : Error :=
  {| code := None;
     message := "Unable to obtain permissions for firebase-debug.log" |}.

Lemma try_candidates_find (cs : list string) :
  try_candidates join cwd openSync closeSync cs
  = match List.find accepts cs with
    | Some c => Ok (join cwd c)
    | None => Throw no_log_file
    end.
Proof.
  induction cs as [|c rest IH]; [reflexivity|].
  cbn [try_candidates List.find]. unfold accepts at 1.
  destruct (open_and_close openSync closeSync (join cwd c)) as [u|e];
    [reflexivity|].
  destruct (is_ENOENT e); [reflexivity|exact IH].
Qed.

(** X6: whatever opening and closing do, the selection is a search for the
    first candidate whose [try] block is left by a [return]; a candidate
    that opens but whose descriptor cannot be closed is passed over like
    one that cannot be opened. *)
Theorem findAvailableLogFile_find :
  findAvailableLogFile join cwd openSync closeSync
  = match List.find accepts candidates with
    | Some c => Ok (join cwd c)
    | None => Throw no_log_file
    end
  /\ (forall (c : string) (rest : list string) (d : fd) (e : Error),
         openSync (join cwd c) = Ok d -> closeSync d = Throw e ->
         is_ENOENT e = false ->
         try_candidates join cwd openSync closeSync (c :: rest)
         = try_candidates join cwd openSync closeSync rest).
Proof.
  split; [apply try_candidates_find|].
  intros c rest d e Ho Hc He. cbn [try_candidates]. unfold open_and_close.
  rewrite Ho, Hc, He. reflexivity.
Qed.

Lemma findAvailableLogFile_error (e : Error) :
  findAvailableLogFile join cwd openSync closeSync = Throw e -> e = no_log_file.
Proof.
  unfold findAvailableLogFile. rewrite try_candidates_find.
  destruct (List.find accepts candidates); [discriminate|].
  intros [= <-]. reflexivity.
Qed.

(** X7: a returned path is one of the ten candidates joined to the working
    directory, and the only error thrown is the final one: no error of
    [openSync] or [closeSync] escapes. *)
Theorem findAvailableLogFile_range :
  (forall p : string,
      findAvailableLogFile join cwd openSync closeSync = Ok p ->
      In p (List.map (join cwd) candidates))
  /\ (forall e : Error,
         findAvailableLogFile join cwd openSync closeSync = Throw e ->
         e = no_log_file).
Proof.
  split; [|exact findAvailableLogFile_error].
  intros p. unfold findAvailableLogFile. rewrite try_candidates_find.
  destruct (List.find accepts candidates) as [c|] eqn:E; [|discriminate].
  intros [= <-]. apply in_map. exact (proj1 (find_some _ _ E)).
Qed.

End LogFileSelection.

Section LogFileSelectionWitness.
Import Cli.

(** A platform on which the first candidate opens but cannot be closed. *)
Definition open_first_only (path : string) : result fd :=
  if String.eqb path "/work/firebase-debug.log" then Ok 3
  else Throw {| code := Some "EACCES"; message := "EACCES" |}.

Definition close_fails (d : fd) : result unit :=
  Throw {| code := Some "EIO"; message := "EIO" |}.

Lemma findAvailableLogFile_find_witness :
  try_candidates join_slash "/work" open_first_only close_fails
    ["firebase-debug.log"; "firebase-debug.1.log"]
  = try_candidates join_slash "/work" open_first_only close_fails
      ["firebase-debug.1.log"].
Proof.
  apply (proj2 (findAvailableLogFile_find join_slash "/work"
                  open_first_only close_fails)
           "firebase-debug.log" ["firebase-debug.1.log"] 3
           {| code := Some "EIO"; message := "EIO" |});
    reflexivity.
Defined.

Lemma findAvailableLogFile_range_witness :
  In "/work/firebase-debug.1.log" (List.map (join_slash "/work") candidates).
Proof.
  apply (proj1 (findAvailableLogFile_range join_slash "/work"
                  (fs_openSync locked_first) fs_closeSync)).
  vm_compute. reflexivity.
Defined.

End LogFileSelectionWitness.

Section StartupFacts.
Import Cli.

Section Bootstrap.
Variable join : string -> string -> string.
Variable cwd : string.
Variable pkgVersion platform nodeVersion date : string.
Variable envOverrides : list string.

Local Abbreviation startup :=
  (startup join cwd pkgVersion platform nodeVersion date envOverrides).
Local Abbreviation select_log p :=
  (findAvailableLogFile join cwd (fs_openSync (fs p)) fs_closeSync).

(** What [startup] has changed when it returns [logFilename]. *)
Record started (argv : list string) (logFilename : string) (p p' : Process) : Prop := {
  started_env :
    env p' = <["IS_FIREBASE_CLI" := "true"]>
               (if env_falsy "DEBUG" p && includes "--debug" (drop 2 argv)
                then <["DEBUG" := "true"]> (env p) else env p);
  started_fs : fs p' = fs p;
  started_transports : transports p' = (transports p ++ [logFilename])%list;
  started_exit : exitListeners p' = (exitListeners p ++ [OnExit logFilename])%list;
  started_uncaught :
    uncaughtListeners p' = (uncaughtListeners p ++ [CallErrorOut])%list;
  started_rest :
    exitCode p' = exitCode p /\ stdoutIsTTY p' = stdoutIsTTY p
    /\ lastError p' = lastError p /\ stdout p' = stdout p
    /\ cmd p' = cmd p /\ errorOutCalls p' = errorOutCalls p
}.

Lemma startup_inv (argv : list string) (p : Process) (r : result string)
    (p1 : Process) :
  startup argv p = (r, p1) ->
  (select_log p = Throw no_log_file /\ r = Throw no_log_file /\ p1 = p)
  \/ (exists logFilename,
         select_log p = Ok logFilename /\ r = Ok logFilename
         /\ started argv logFilename p p1).
Proof.
  intros H.
  destruct (select_log p) as [logFilename|e] eqn:E.
  - right. exists logFilename. split; [reflexivity|].
    revert H.
    cbv [Cli.startup mbind M_bind bind gets lift when modify ret logger_debug
         mret M_ret].
    rewrite E.
    destruct (env_falsy "DEBUG" p && includes "--debug" (drop 2 argv)) eqn:Ed;
      destruct (negb (Nat.eqb (length envOverrides) 0));
      intros [= <- <-]; (split; [reflexivity|]);
      (split; cbn; rewrite ?Ed; try reflexivity; repeat split).
  - left.
    assert (He : e = no_log_file)
      by exact (findAvailableLogFile_error join cwd _ _ e E).
    subst e.
    cbv [Cli.startup mbind M_bind bind gets lift] in H. rewrite E in H.
    injection H as <- <-. auto.
Qed.

Lemma started_DEBUG (argv : list string) (logFilename : string) (p p1 : Process) :
  started argv logFilename p p1 ->
  env p1 !! "DEBUG"
  = if env_falsy "DEBUG" p && includes "--debug" (drop 2 argv)
    then Some "true" else env p !! "DEBUG".
Proof.
  intros Hs. rewrite (started_env _ _ _ _ Hs).
  rewrite lookup_insert_ne by discriminate.
  destruct (env_falsy "DEBUG" p && includes "--debug" (drop 2 argv));
    [apply lookup_insert_eq|reflexivity].
Qed.

(** X8: started with [--debug], the process has a truthy [DEBUG], and as
    long as the environment stays as [startup] left it the [exit] listener
    keeps the log file, whatever the exit code. *)
Theorem debug_flag_keeps_log_file
    (argv : list string) (p p1 : Process) (logFilename : string) :
  startup argv p = (Ok logFilename, p1) ->
  includes "--debug" (drop 2 argv) = true ->
  env_falsy "DEBUG" p1 = false
  /\ (forall (unlink_refused : string -> option Error)
             (now : Z) (bold : string -> string)
             (notify : string -> string -> result unit)
             (code : Z) (p2 : Process),
         env p2 = env p1 ->
         fs (snd (on_exit unlink_refused now bold notify logFilename code p2))
         = fs p2).
Proof.
  intros Hs Hflag.
  destruct (startup_inv argv p _ p1 Hs) as [(_ & H & _)|(l & _ & [= <-] & Hst)];
    [discriminate H|].
  assert (Hd : env_falsy "DEBUG" p1 = false).
  { unfold env_falsy at 1. rewrite (started_DEBUG _ _ _ _ Hst), Hflag, andb_true_r.
    unfold env_falsy. destruct (env p !! "DEBUG") as [v|]; [|reflexivity].
    destruct (String.eqb v "") eqn:Ev; [reflexivity|exact Ev]. }
  split; [exact Hd|].
  intros unlink_refused now bold notify code p2 He.
  assert (Hd2 : env_falsy "DEBUG" p2 = false)
    by (unfold env_falsy in Hd |- *; rewrite He; exact Hd).
  assert (Ha : attempts_removal logFilename (effective_code code p2) p2 = false)
    by (unfold attempts_removal; rewrite Hd2; reflexivity).
  destruct (on_exit_files unlink_refused now bold notify logFilename code p2
              (or_introl Ha)) as [Hok Hfs].
  cbv zeta in Hok, Hfs. rewrite Ha in Hfs. exact Hfs.
Qed.

(** X9: [startup] sets [IS_FIREBASE_CLI] to [true], never overwrites a
    [DEBUG] that holds a non-empty value, sets [DEBUG] to [true] only for
    [--debug], and leaves every other variable alone. *)
Theorem startup_environment
    (argv : list string) (p p1 : Process) (logFilename : string) :
  startup argv p = (Ok logFilename, p1) ->
  env p1 !! "IS_FIREBASE_CLI" = Some "true"
  /\ (forall v, env p !! "DEBUG" = Some v -> v <> "" ->
                env p1 !! "DEBUG" = Some v)
  /\ (includes "--debug" (drop 2 argv) = false ->
      env p1 !! "DEBUG" = env p !! "DEBUG")
  /\ (forall name, name <> "DEBUG" -> name <> "IS_FIREBASE_CLI" ->
                   env p1 !! name = env p !! name).
Proof.
  intros Hs.
  destruct (startup_inv argv p _ p1 Hs) as [(_ & H & _)|(l & _ & [= <-] & Hst)];
    [discriminate H|].
  split; [|split; [|split]].
  - rewrite (started_env _ _ _ _ Hst). apply lookup_insert_eq.
  - intros v Hv Hne. rewrite (started_DEBUG _ _ _ _ Hst).
    unfold env_falsy. rewrite Hv.
    apply String.eqb_neq in Hne. rewrite Hne. reflexivity.
  - intros Hflag. rewrite (started_DEBUG _ _ _ _ Hst), Hflag, andb_false_r.
    reflexivity.
  - intros name Hd Hi. rewrite (started_env _ _ _ _ Hst).
    rewrite lookup_insert_ne by congruence.
    destruct (env_falsy "DEBUG" p && includes "--debug" (drop 2 argv));
      [rewrite lookup_insert_ne by congruence|]; reflexivity.
Qed.

(** X10: the file [startup] returns is the one the selection chose on the
    file system as it was, the one the logger writes to and the one the
    [exit] listener will remove; [startup] itself creates and deletes
    nothing. *)
Theorem startup_log_file
    (argv : list string) (p p1 : Process) (logFilename : string) :
  startup argv p = (Ok logFilename, p1) ->
  select_log p = Ok logFilename
  /\ transports p1 = (transports p ++ [logFilename])%list
  /\ exitListeners p1 = (exitListeners p ++ [OnExit logFilename])%list
  /\ fs p1 = fs p.
Proof.
  intros Hs.
  destruct (startup_inv argv p _ p1 Hs) as [(_ & H & _)|(l & Hl & [= <-] & Hst)];
    [discriminate H|].
  split; [exact Hl|]. split; [apply (started_transports _ _ _ _ Hst)|].
  split; [apply (started_exit _ _ _ _ Hst)|apply (started_fs _ _ _ _ Hst)].
Qed.

(** X11: when [startup] throws, the error is the one of the log file
    selection and the process is exactly as it was: no variable set, no
    listener registered, nothing logged. *)
Theorem startup_failure_leaves_no_trace
    (argv : list string) (p p1 : Process) (e : Error) :
  startup argv p = (Throw e, p1) ->
  e = no_log_file /\ p1 = p.
Proof.
  intros Hs.
  destruct (startup_inv argv p _ p1 Hs) as [(_ & H & Hp)|(l & _ & H & _)];
    [|discriminate H].
  injection H as ->. auto.
Qed.

End Bootstrap.

Definition debug_argv : list string := ["node"; "firebase"; "deploy"; "--debug"].

Definition started_with_debug : Process :=
  snd (Cli.startup join_slash "/work" "14.0.0" "linux" "v20.0.0" "Tue Nov 03 2026" []
         debug_argv (fresh_process locked_first)).

Lemma started_with_debug_eq :
  Cli.startup join_slash "/work" "14.0.0" "linux" "v20.0.0" "Tue Nov 03 2026" []
    debug_argv (fresh_process locked_first)
  = (Ok "/work/firebase-debug.1.log", started_with_debug).
Proof. vm_compute. reflexivity. Qed.

(** A working directory that already holds a writable
    [firebase-debug.log]. *)
Definition log_present : gmap string Inode :=
  {[ "/work/firebase-debug.log" := {| isFile := true; open_error := None |} ]}.

Definition started_with_debug_on_log : Process :=
  snd (Cli.startup join_slash "/work" "14.0.0" "linux" "v20.0.0" "Tue Nov 03 2026" []
         debug_argv (fresh_process log_present)).

Definition started_without_debug_on_log : Process :=
  snd (Cli.startup join_slash "/work" "14.0.0" "linux" "v20.0.0" "Tue Nov 03 2026" []
         ["node"; "firebase"; "deploy"] (fresh_process log_present)).

(** With [--debug] the existing log file survives a clean exit. *)
Lemma debug_flag_keeps_log_file_witness :
  file_exists "/work/firebase-debug.log" started_with_debug_on_log = true
  /\ file_exists "/work/firebase-debug.log"
       (snd (on_exit never_refused 0 (fun s => s) (fun _ _ => Ok tt)
               "/work/firebase-debug.log" 0 started_with_debug_on_log)) = true.
Proof.
  assert (Hs : Cli.startup join_slash "/work" "14.0.0" "linux" "v20.0.0"
                 "Tue Nov 03 2026" [] debug_argv (fresh_process log_present)
               = (Ok "/work/firebase-debug.log", started_with_debug_on_log))
    by (vm_compute; reflexivity).
  assert (Hex : file_exists "/work/firebase-debug.log" started_with_debug_on_log
                = true) by (vm_compute; reflexivity).
  split; [exact Hex|].
  pose proof (proj2 (debug_flag_keeps_log_file _ _ _ _ _ _ _ _ _ _ _ Hs eq_refl)
                never_refused 0%Z (fun s => s) (fun _ _ => Ok tt) 0%Z
                started_with_debug_on_log eq_refl) as Hfs.
  unfold file_exists in Hex |- *. rewrite Hfs. exact Hex.
Defined.

(** Without the flag the same exit removes it. *)
Example exit_without_debug_flag_removes_log :
  file_exists "/work/firebase-debug.log" started_without_debug_on_log = true
  /\ file_exists "/work/firebase-debug.log"
       (snd (on_exit never_refused 0 (fun s => s) (fun _ _ => Ok tt)
               "/work/firebase-debug.log" 0 started_without_debug_on_log)) = false.
Proof. split; vm_compute; reflexivity. Qed.

Lemma startup_environment_witness :
  env started_with_debug !! "IS_FIREBASE_CLI" = Some "true".
Proof.
  exact (proj1 (startup_environment _ _ _ _ _ _ _ _ _ _ _ started_with_debug_eq)).
Defined.

Lemma startup_log_file_witness :
  transports started_with_debug = ["/work/firebase-debug.1.log"]
  /\ exitListeners started_with_debug = [OnExit "/work/firebase-debug.1.log"]
  /\ fs started_with_debug = locked_first.
Proof.
  exact (proj2 (startup_log_file _ _ _ _ _ _ _ _ _ _ _ started_with_debug_eq)).
Defined.

Lemma startup_failure_leaves_no_trace_witness :
  Cli.startup join_slash "/work" "14.0.0" "linux" "v20.0.0" "Tue Nov 03 2026" []
    debug_argv (fresh_process all_locked)
  = (Throw no_log_file, fresh_process all_locked)
  /\ (no_log_file = no_log_file
      /\ fresh_process all_locked = fresh_process all_locked).
Proof.
  assert (H : Cli.startup join_slash "/work" "14.0.0" "linux" "v20.0.0"
                "Tue Nov 03 2026" [] debug_argv (fresh_process all_locked)
              = (Throw no_log_file, fresh_process all_locked))
    by (vm_compute; reflexivity).
  split; [exact H|].
  exact (startup_failure_leaves_no_trace _ _ _ _ _ _ _ _ _ _ _ H).
Defined.

End StartupFacts.

Section ExitListenerFacts.
Import Cli.

Section Handler.
Variable unlink_refused : string -> option Error.
Variable now : Z.
Variable bold : string -> string.
Variable notify : string -> string -> result unit.

(** The two lines printed for a repeated failure. *)
Definition trouble_hint (code : Z) : list string :=
  [""; if (code =? 1)%Z
       then "Having trouble? Try " ++ bold "firebase [command] --help"
       else "Having trouble? Try again or contact support with contents of firebase-debug.log"].

(** The last failure was less than two minutes before [now]. *)
Definition failed_recently (p : Process) : bool :=
  (now - 120000 <? default 0%Z (lastError p))%Z.

(** The arguments [notify] is called with. *)
Definition installMethod (p : Process) : string :=
  if env_falsy "FIREPIT_VERSION" p then "npm" else "automatic script".

Definition updateCommand (p : Process) : string :=
  if env_falsy "FIREPIT_VERSION" p then "npm install -g firebase-tools"
  else "curl -sL https://firebase.tools | upgrade=true bash".

Lemma track_last_error_effect (code : Z) (p : Process) :
  track_last_error now bold code p
  = (Ok tt,
     if (0 <? code)%Z && stdoutIsTTY p
     then set_lastError (Some now)
            (if failed_recently p && bool_decide (is_Some (cmd p))
             then set_stdout (fun out => (out ++ trouble_hint code)%list) p
             else p)
     else set_lastError None p).
Proof.
  unfold failed_recently, trouble_hint.
  cbv [track_last_error mbind M_bind bind gets when modify ret console_log].
  destruct ((0 <? code)%Z && stdoutIsTTY p); [|reflexivity].
  destruct (now - 120000 <? default 0%Z (lastError p))%Z; [|reflexivity].
  destruct (bool_decide (is_Some (cmd p))); [|reflexivity].
  cbn [andb]. rewrite andb_true_r. unfold set_stdout; cbn.
  rewrite <- app_assoc. reflexivity.
Qed.

Lemma notify_update_effect (p : Process) :
  notify_update notify p
  = (Ok tt,
     match notify (installMethod p) (updateCommand p) with
     | Ok _ => p
     | Throw e =>
         set_debugLog
           (fun l => (l ++ [["Error when notifying about new CLI updates:"];
                            [message e]])%list) p
     end).
Proof.
  unfold installMethod, updateCommand.
  cbv [notify_update try_catch mbind M_bind bind gets lift modify logger_debug].
  destruct (notify _ _) as [[]|e]; [reflexivity|].
  unfold set_debugLog; cbn. rewrite <- app_assoc. reflexivity.
Qed.

(** The state the listener leaves when it returns. *)
Definition after_exit (logFilename : string) (code : Z) (p : Process) : Process :=
  let ec := effective_code code p in
  let p1 := if attempts_removal logFilename ec p
            then set_fs (delete logFilename) p else p in
  let p2 := if (0 <? ec)%Z && stdoutIsTTY p
            then set_lastError (Some now)
                   (if failed_recently p && bool_decide (is_Some (cmd p))
                    then set_stdout (fun out => (out ++ trouble_hint ec)%list) p1
                    else p1)
            else set_lastError None p1 in
  match notify (installMethod p) (updateCommand p) with
  | Ok _ => p2
  | Throw e =>
      set_debugLog
        (fun l => (l ++ [["Error when notifying about new CLI updates:"];
                         [message e]])%list) p2
  end.

(** The listener as a whole: the refusal of the removal leaves it at once;
    otherwise it runs to its end. *)
Lemma on_exit_result (logFilename : string) (code : Z) (p : Process) :
  on_exit unlink_refused now bold notify logFilename code p
  = match (if attempts_removal logFilename (effective_code code p) p
           then unlink_refused logFilename else None) with
    | Some e => (Throw e, p)
    | None => (Ok tt, after_exit logFilename code p)
    end.
Proof.
  unfold on_exit. cbv [mbind M_bind bind gets].
  rewrite remove_log_file_effect.
  destruct (attempts_removal logFilename (effective_code code p) p) eqn:Ea;
    [destruct (unlink_refused logFilename) as [e|]; [reflexivity|]|];
    rewrite track_last_error_effect, notify_update_effect;
    unfold after_exit; cbv zeta; rewrite Ea; f_equal;
    destruct ((0 <? effective_code code p)%Z && stdoutIsTTY p) eqn:E2;
    unfold failed_recently, installMethod, updateCommand, env_falsy in *;
    cbn [stdoutIsTTY lastError cmd env set_fs]; rewrite ?E2;
    destruct ((now - 120000 <? default 0%Z (lastError p))%Z
              && bool_decide (is_Some (cmd p)));
    reflexivity.
Qed.

Lemma on_exit_returns (logFilename : string) (code : Z) (p : Process) :
  fst (on_exit unlink_refused now bold notify logFilename code p) = Ok tt ->
  on_exit unlink_refused now bold notify logFilename code p
  = (Ok tt, after_exit logFilename code p).
Proof.
  rewrite on_exit_result.
  destruct (if attempts_removal logFilename (effective_code code p) p
            then unlink_refused logFilename else None);
    [discriminate|reflexivity].
Qed.

Lemma on_exit_throws (logFilename : string) (code : Z) (p : Process) (e : Error) :
  fst (on_exit unlink_refused now bold notify logFilename code p) = Throw e ->
  on_exit unlink_refused now bold notify logFilename code p = (Throw e, p)
  /\ attempts_removal logFilename (effective_code code p) p = true
  /\ unlink_refused logFilename = Some e.
Proof.
  rewrite on_exit_result.
  destruct (attempts_removal logFilename (effective_code code p) p);
    [|discriminate].
  destruct (unlink_refused logFilename) as [e'|]; [|discriminate].
  intros [= ->]. auto.
Qed.

(** X12: when the listener returns, [lastError] holds the time of this
    exit if the exit failed on a terminal, and is cleared otherwise; when
    the removal of the log file is attempted and refused, [lastError] is
    as it was. *)
Theorem on_exit_lastError (logFilename : string) (code : Z) (p : Process) :
  let r := on_exit unlink_refused now bold notify logFilename code p in
  (fst r = Ok tt ->
   lastError (snd r)
   = if (0 <? effective_code code p)%Z && stdoutIsTTY p
     then Some now else None)
  /\ (forall e,
         attempts_removal logFilename (effective_code code p) p = true ->
         unlink_refused logFilename = Some e ->
         fst r = Throw e /\ lastError (snd r) = lastError p).
Proof.
  cbv zeta. split.
  - intros H. rewrite (on_exit_returns _ _ _ H).
    unfold after_exit. cbv zeta. cbn [snd].
    destruct (notify _ _);
      destruct ((0 <? effective_code code p)%Z && stdoutIsTTY p);
      reflexivity.
  - intros e Ha Hr. rewrite on_exit_result, Ha, Hr. split; reflexivity.
Qed.

(** X13: when the listener returns, it has printed the two hint lines
    exactly if the exit failed on a terminal, the last failure is less
    than two minutes old and a command was parsed, and nothing otherwise;
    the hint names [--help] for exit code 1 and the debug log for any
    other.  When the removal of the log file is attempted and refused,
    nothing is printed. *)
Theorem on_exit_stdout (logFilename : string) (code : Z) (p : Process) :
  let r := on_exit unlink_refused now bold notify logFilename code p in
  (fst r = Ok tt ->
   stdout (snd r)
   = (stdout p
      ++ if (0 <? effective_code code p)%Z && stdoutIsTTY p
            && failed_recently p && bool_decide (is_Some (cmd p))
         then trouble_hint (effective_code code p) else [])%list)
  /\ (forall e,
         attempts_removal logFilename (effective_code code p) p = true ->
         unlink_refused logFilename = Some e ->
         fst r = Throw e /\ stdout (snd r) = stdout p).
Proof.
  cbv zeta. split.
  - intros H. rewrite (on_exit_returns _ _ _ H).
    unfold after_exit. cbv zeta. cbn [snd].
    destruct (notify _ _);
      destruct ((0 <? effective_code code p)%Z && stdoutIsTTY p);
      destruct (failed_recently p); destruct (bool_decide (is_Some (cmd p)));
      destruct (attempts_removal logFilename (effective_code code p) p);
      cbn; rewrite ?app_nil_r; reflexivity.
  - intros e Ha Hr. rewrite on_exit_result, Ha, Hr. split; reflexivity.
Qed.

End Handler.

(** X15: a failure of the update notifier is swallowed.  Whether the
    listener returns or throws does not depend on the notifier; and when
    the listener returns, the debug log has gained the notice and the
    error message if the notifier failed, and nothing if it succeeded.
    The notifier is told to use npm unless [FIREPIT_VERSION] is set to a
    non-empty value. *)
Theorem on_exit_notifier_failure
    (unlink_refused : string -> option Error) (now : Z) (bold : string -> string)
    (notify : string -> string -> result unit)
    (logFilename : string) (code : Z) (p : Process) :
  let r := on_exit unlink_refused now bold notify logFilename code p in
  (forall notify' : string -> string -> result unit,
      fst (on_exit unlink_refused now bold notify' logFilename code p) = fst r)
  /\ (fst r = Ok tt ->
      debugLog (snd r)
      = (debugLog p
         ++ match notify (if env_falsy "FIREPIT_VERSION" p
                          then "npm" else "automatic script")
                         (if env_falsy "FIREPIT_VERSION" p
                          then "npm install -g firebase-tools"
                          else "curl -sL https://firebase.tools | upgrade=true bash")
            with
            | Ok _ => []
            | Throw e => [["Error when notifying about new CLI updates:"];
                          [message e]]
            end)%list).
Proof.
  cbv zeta. split.
  - intros notify'. rewrite !on_exit_result.
    destruct (if attempts_removal logFilename (effective_code code p) p
              then unlink_refused logFilename else None); reflexivity.
  - intros H. rewrite (on_exit_returns _ _ _ _ _ _ _ H).
    unfold after_exit, installMethod, updateCommand. cbv zeta. cbn [snd].
    destruct (notify _ _);
      destruct ((0 <? effective_code code p)%Z && stdoutIsTTY p);
      destruct (failed_recently now p && bool_decide (is_Some (cmd p)));
      destruct (attempts_removal logFilename (effective_code code p) p);
      cbn; rewrite ?app_nil_r; reflexivity.
Qed.

(** X16: [lastError] carries from one run to the next.  After a failed
    exit on a terminal at time [now1] whose listener returned, a later
    failed exit on a terminal at time [now2], of a run that parsed a
    command and whose listener returns, prints the hint when less than two
    minutes have passed, and prints nothing when two minutes or more have
    passed. *)
Theorem repeated_failure_hint
    (refused1 refused2 : string -> option Error)
    (now1 now2 : Z) (bold : string -> string)
    (notify1 notify2 : string -> string -> result unit)
    (log1 log2 : string) (code1 code2 : Z) (p p2 : Process) (c : string) :
  (0 < effective_code code1 p)%Z -> stdoutIsTTY p = true ->
  fst (on_exit refused1 now1 bold notify1 log1 code1 p) = Ok tt ->
  lastError p2 = lastError (snd (on_exit refused1 now1 bold notify1 log1 code1 p)) ->
  (0 < effective_code code2 p2)%Z -> stdoutIsTTY p2 = true ->
  cmd p2 = Some c ->
  fst (on_exit refused2 now2 bold notify2 log2 code2 p2) = Ok tt ->
  ((now2 - now1 < 120000)%Z ->
   stdout (snd (on_exit refused2 now2 bold notify2 log2 code2 p2))
   = (stdout p2 ++ trouble_hint bold (effective_code code2 p2))%list)
  /\ ((120000 <= now2 - now1)%Z ->
      stdout (snd (on_exit refused2 now2 bold notify2 log2 code2 p2)) = stdout p2).
Proof.
  intros Hc1 Ht1 Hr1 Hl Hc2 Ht2 Hcmd Hr2.
  assert (Hl' : lastError p2 = Some now1).
  { rewrite Hl, (on_exit_returns _ _ _ _ _ _ _ Hr1).
    unfold after_exit. cbv zeta. cbn [snd].
    apply Z.ltb_lt in Hc1. rewrite Hc1, Ht1. cbn [andb].
    destruct (notify1 _ _); reflexivity. }
  assert (Hout : stdout (snd (on_exit refused2 now2 bold notify2 log2 code2 p2))
                 = (stdout p2
                    ++ if (now2 - 120000 <? now1)%Z
                       then trouble_hint bold (effective_code code2 p2)
                       else [])%list).
  { rewrite (on_exit_returns _ _ _ _ _ _ _ Hr2).
    unfold after_exit, failed_recently. cbv zeta. cbn [snd].
    assert (Hb : bool_decide (is_Some (cmd p2)) = true)
      by (rewrite Hcmd; apply bool_decide_eq_true; eauto).
    apply Z.ltb_lt in Hc2. rewrite Hc2, Ht2, Hl', Hb.
    cbn [andb default from_option id]. rewrite andb_true_r.
    destruct (notify2 _ _); destruct (now2 - 120000 <? now1)%Z;
      destruct (attempts_removal log2 (effective_code code2 p2) p2);
      cbn; rewrite ?app_nil_r; reflexivity. }
  rewrite Hout. split; intros Hd.
  - assert (E : (now2 - 120000 <? now1)%Z = true) by (apply Z.ltb_lt; lia).
    rewrite E. reflexivity.
  - assert (E : (now2 - 120000 <? now1)%Z = false) by (apply Z.ltb_ge; lia).
    rewrite E. apply app_nil_r.
Qed.

(** A terminal session in [/work], whose log file exists, after a command
    was parsed; and the same with a failure recorded 50 seconds before
    time [1000000]. *)
Definition failed_session : Process :=
  set_cmd (Some "deploy") (fresh_process log_present).

Definition failed_again_session : Process :=
  set_lastError (Some 950000%Z) failed_session.

(** A directory that may not be written. *)
Definition always_refused (path : string) : option Error :=
  Some {| code := Some "EACCES"; message := "EACCES: permission denied" |}.

Definition notifier_ok (installMethod updateCommand : string) : result unit :=
  Ok tt.

Definition notifier_offline (installMethod updateCommand : string) : result unit :=
  Throw {| code := None; message := "offline" |}.

Lemma on_exit_lastError_witness :
  lastError (snd (on_exit never_refused 1000000 (fun s => s) notifier_ok
                    "/work/firebase-debug.log" 1 failed_session))
  = Some 1000000%Z
  /\ lastError (snd (on_exit always_refused 1000000 (fun s => s) notifier_ok
                       "/work/firebase-debug.log" 1 failed_again_session))
     = Some 950000%Z.
Proof.
  split.
  - exact (proj1 (on_exit_lastError never_refused 1000000 (fun s => s) notifier_ok
                    "/work/firebase-debug.log" 1 failed_session)
             ltac:(vm_compute; reflexivity)).
  - exact (proj2 (proj2 (on_exit_lastError always_refused 1000000 (fun s => s)
                           notifier_ok "/work/firebase-debug.log" 1
                           failed_again_session)
                    {| code := Some "EACCES"; message := "EACCES: permission denied" |}
                    ltac:(vm_compute; reflexivity) eq_refl)).
Defined.

Lemma on_exit_stdout_witness :
  stdout (snd (on_exit never_refused 1000000 (fun s => s) notifier_ok
                 "/work/firebase-debug.log" 1 failed_again_session))
  = [""; "Having trouble? Try firebase [command] --help"]
  /\ stdout (snd (on_exit always_refused 1000000 (fun s => s) notifier_ok
                    "/work/firebase-debug.log" 1 failed_again_session))
     = [].
Proof.
  split.
  - exact (proj1 (on_exit_stdout never_refused 1000000 (fun s => s) notifier_ok
                    "/work/firebase-debug.log" 1 failed_again_session)
             ltac:(vm_compute; reflexivity)).
  - exact (proj2 (proj2 (on_exit_stdout always_refused 1000000 (fun s => s)
                           notifier_ok "/work/firebase-debug.log" 1
                           failed_again_session)
                    {| code := Some "EACCES"; message := "EACCES: permission denied" |}
                    ltac:(vm_compute; reflexivity) eq_refl)).
Defined.

Lemma on_exit_notifier_failure_witness :
  debugLog (snd (on_exit never_refused 1000000 (fun s => s) notifier_offline
                   "/work/firebase-debug.log" 1 failed_session))
  = [["Error when notifying about new CLI updates:"]; ["offline"]]
  /\ fst (on_exit never_refused 1000000 (fun s => s) notifier_ok
            "/work/firebase-debug.log" 1 failed_session)
     = fst (on_exit never_refused 1000000 (fun s => s) notifier_offline
              "/work/firebase-debug.log" 1 failed_session).
Proof.
  split.
  - exact (proj2 (on_exit_notifier_failure never_refused 1000000 (fun s => s)
                    notifier_offline "/work/firebase-debug.log" 1 failed_session)
             ltac:(vm_compute; reflexivity)).
  - exact (proj1 (on_exit_notifier_failure never_refused 1000000 (fun s => s)
                    notifier_offline "/work/firebase-debug.log" 1 failed_session)
             notifier_ok).
Defined.

Lemma repeated_failure_hint_witness :
  stdout (snd (on_exit never_refused 1060000 (fun s => s) notifier_ok
                 "/work/firebase-debug.log" 1
                 (snd (on_exit never_refused 1000000 (fun s => s) notifier_ok
                         "/work/firebase-debug.log" 1 failed_session))))
  = [""; "Having trouble? Try firebase [command] --help"].
Proof.
  refine (proj1 (repeated_failure_hint never_refused never_refused
                   1000000 1060000 (fun s => s) notifier_ok notifier_ok
                   "/work/firebase-debug.log" "/work/firebase-debug.log"
                   1 1 failed_session
                   (snd (on_exit never_refused 1000000 (fun s => s) notifier_ok
                           "/work/firebase-debug.log" 1 failed_session))
                   "deploy" _ _ _ _ _ _ _ _) _);
    try reflexivity; vm_compute; reflexivity.
Defined.

End ExitListenerFacts.

Section HandlerRejection.
Import Js DisableUser.

(** X17: when the project fetch rejects, the handler's promise rejects
    with the same error: the failure is not turned into an error content
    object, and the remote state is as it was. *)
Theorem handler_rejection_propagates
    (Project CallToolResult : Type)
    (mcpError : string -> CallToolResult) (toContent : Project -> CallToolResult)
    (uid : string) (disable : bool) (ctx : Context) (r : Remote Project)
    (pid : string) (e : Error) :
  projectId ctx = Some pid -> pid <> "" ->
  fetch_project r pid = Throw e ->
  handler Project CallToolResult mcpError toContent uid disable ctx r
  = (Throw e, r).
Proof.
  intros Hp Hne Hf.
  rewrite (handler_with_project Project CallToolResult mcpError toContent
             uid disable ctx r pid Hp Hne).
  rewrite Hf. reflexivity.
Qed.

Lemma handler_rejection_propagates_witness :
  handler string (bool * string) (fun m => (true, m)) (fun p => (false, p))
    "user-1" false {| projectId := Some "other-project" |} demo_remote
  = (Throw {| code := None; message := "not found" |}, demo_remote).
Proof.
  apply (handler_rejection_propagates string (bool * string)
           (fun m => (true, m)) (fun p => (false, p))
           "user-1" false {| projectId := Some "other-project" |} demo_remote
           "other-project");
    [reflexivity|discriminate|reflexivity].
Defined.

End HandlerRejection.
